(** * go-textile-wallet: key codec, accounts and word counts

    A shallow embedding of the packages [key], [account] and [wallet] of
    textileio/go-textile-wallet, with the properties the design document
    states about them.

    Layout: the data model and the operations first (one module per Go
    package), then the lemmas and theorems. *)

From Stdlib Require Import List NArith ZArith Bool Lia.
From Stdlib.Strings Require Import String Ascii Byte.
Import ListNotations.


(** ** Shared vocabulary *)

(** A Go [[]byte]. *)
Definition bytes := list byte.

(** [bytes.Equal]. *)
Fixpoint bytes_Equal (a b : bytes) : bool :=
  match a, b with
  | [], [] => true
  | x :: a', y :: b' => Byte.eqb x y && bytes_Equal a' b'
  | _, _ => false
  end.

(** The Go slice expression [l[lo:hi]] for [lo <= hi <= len l]. *)
Definition slice {A : Type} (lo hi : nat) (l : list A) : list A :=
  firstn (hi - lo) (skipn lo l).

(** Conversion of a number to the byte it is congruent to. *)
Definition byte_of_N (n : N) : byte :=
  match Byte.of_N (n mod 256) with
  | Some b => b
  | None => x00
  end.

(** What the base58 decoder can complain about. *)
Inductive base58_error : Type :=
| ZeroLengthString
| InvalidBase58Digit (r : ascii).

(** The error values of the three packages.  The sentinels keep their Go
    names; the two errors that [decodeString] builds with [fmt.Errorf] are
    constructors with the data they print. *)
Inductive error : Type :=
| ErrInvalidVersionByte
| ErrInvalidChecksum
| ErrBase58DecodeFailed (cause : base58_error)
| ErrEncodedTooShort (len : nat)
| ErrInvalidKey
| ErrInvalidSignature
| ErrNoSeed
| ErrCannotSign
| ErrCannotDecrypt
| ErrInvalidWordCount
| ErrEOF
| ErrUnexpectedEOF
| ErrExternal (msg : string).

(** Go's [(value, error)] result pair. *)
Inductive Result (A : Type) : Type :=
| Ok (a : A)
| Err (e : error).
Arguments Ok {A} a.
Arguments Err {A} e.

Definition Result_bind {A B : Type} (r : Result A) (k : A -> Result B) : Result B :=
  match r with
  | Ok a => k a
  | Err e => Err e
  end.

Declare Scope result_scope.
Delimit Scope result_scope with result.
Notation "x <- r ;; k" := (Result_bind r (fun x => k))
  (at level 61, r at next level, right associativity) : result_scope.
Notation "r ;; k" := (Result_bind r (fun _ => k))
  (at level 61, right associativity) : result_scope.

(** Is this error the sentinel [ErrInvalidVersionByte]?  (Go compares error
    values by identity; a sentinel is only equal to itself.) *)
Definition is_ErrInvalidVersionByte (e : error) : bool :=
  match e with
  | ErrInvalidVersionByte => true
  | _ => false
  end.

(** A Go call either returns or panics with an error value. *)
Inductive Outcome (A : Type) : Type :=
| Returned (a : A)
| Panicked (e : error).
Arguments Returned {A} a.
Arguments Panicked {A} e.

(** ** Positional numerals

    Big-endian digit lists in a base, the arithmetic both base58 and the
    byte representation of a number rest on. *)
Module Radix.

Definition from_digits (base : N) (ds : list N) : N :=
  fold_left (fun acc d => acc * base + d)%N ds 0%N.

Fixpoint to_digits_fuel (base : N) (fuel : nat) (n : N) (acc : list N) : list N :=
  match fuel with
  | O => acc
  | S fuel' =>
      if (n =? 0)%N then acc
      else to_digits_fuel base fuel' (n / base)%N ((n mod base)%N :: acc)
  end.

(** The digits of [n], most significant first, none for [0]. *)
Definition to_digits (base : N) (n : N) : list N :=
  to_digits_fuel base (N.to_nat (N.size n)) n [].

(** Number of leading zero digits. *)
Fixpoint leading_zeros (ds : list N) : nat :=
  match ds with
  | d :: ds' => if (d =? 0)%N then S (leading_zeros ds') else O
  | [] => O
  end.

End Radix.

(** ** Package crc16 *)
Module crc16.

(** Modelled from the spec: package [crc16] of this repository is imported
    by [key/key.go] but its source is not part of the sources at hand.  The
    design document asks for "a standard 16-bit cyclic-redundancy
    algorithm" with the contract [checksum(bytes) -> 2 bytes] and
    [validate(bytes, checksum) -> ok/fail]; this is CRC-16/XMODEM
    (polynomial 0x1021, initial value 0) over 16-bit words, the two
    checksum bytes written low byte first. *)
Definition polynomial : Z := 0x1021.

Definition step (crc : Z) : Z :=
  let shifted := Z.land (Z.shiftl crc 1) 0xFFFF in
  if Z.testbit crc 15 then Z.lxor shifted polynomial else shifted.

Definition update (crc : Z) (b : byte) : Z :=
  let crc0 := Z.lxor crc (Z.shiftl (Z.of_N (Byte.to_N b)) 8) in
  step (step (step (step (step (step (step (step crc0))))))).

Definition crc (data : bytes) : Z := fold_left update data 0%Z.

(** Modelled from the spec: [checksum(bytes) -> 2 bytes]. *)
Definition Checksum (data : bytes) : bytes :=
  let c := Z.to_N (crc data) in
  [byte_of_N c; byte_of_N (c / 256)].

(** Modelled from the spec: [validate(bytes, checksum) -> ok/fail]. *)
Definition Validate (data expected : bytes) : Result unit :=
  if bytes_Equal (Checksum data) expected then Ok tt
  else Err ErrInvalidChecksum.

End crc16.

(** ** The base58 codec

    [github.com/mr-tron/base58] is an external dependency.  Its
    [FastBase58Encoding] and [FastBase58Decoding] compute the Bitcoin base58
    representation: every leading zero byte is the character '1', the rest
    is the big-endian number written in base 58 over the alphabet below.
    Decoding refuses the empty string and any character outside the alphabet;
    the limbs it accumulates in are wide enough for every input, so its
    overflow errors cannot arise. *)
Module base58.

Definition alphabet : list ascii :=
  list_ascii_of_string
    "123456789ABCDEFGHJKLMNPQRSTUVWXYZabcdefghijkmnopqrstuvwxyz".

Definition zero : ascii := "1"%char.

Definition encode_digit (d : N) : ascii := nth (N.to_nat d) alphabet zero.

Fixpoint index_of (c : ascii) (l : list ascii) (i : N) : option N :=
  match l with
  | [] => None
  | x :: l' => if Ascii.eqb c x then Some i else index_of c l' (N.succ i)
  end.

Definition decode_digit (c : ascii) : option N := index_of c alphabet 0%N.

(** The digits of a string, or the first character that is not one. *)
Fixpoint decode_digits (cs : list ascii) : base58_error + list N :=
  match cs with
  | [] => inr []
  | c :: cs' =>
      match decode_digit c with
      | None => inl (InvalidBase58Digit c)
      | Some d =>
          match decode_digits cs' with
          | inr ds => inr (d :: ds)
          | inl e => inl e
          end
      end
  end.

Fixpoint zcount (bin : bytes) : nat :=
  match bin with
  | b :: bin' => if Byte.eqb b x00 then S (zcount bin') else O
  | [] => O
  end.

Definition FastBase58Encoding (bin : bytes) : string :=
  let z := zcount bin in
  let n := Radix.from_digits 256 (map Byte.to_N (skipn z bin)) in
  string_of_list_ascii
    (repeat zero z ++ map encode_digit (Radix.to_digits 58 n)).

Definition FastBase58Decoding (str : string) : base58_error + bytes :=
  match str with
  | EmptyString => inl ZeroLengthString
  | _ =>
      match decode_digits (list_ascii_of_string str) with
      | inl e => inl e
      | inr ds =>
          let z := Radix.leading_zeros ds in
          let n := Radix.from_digits 58 ds in
          inr (repeat x00 z ++ map byte_of_N (Radix.to_digits 256 n))
      end
  end.

End base58.

(** ** Package key (key/key.go) *)
Module key.
Local Open Scope result_scope.

(** [type VersionByte byte]. *)
Abbreviation VersionByte := byte.

(** Version byte of an encoded textile address, [0xdd]. *)
Definition VersionByteAccountID : VersionByte := xdd.
(** Version byte of an encoded textile seed, [0xff]. *)
Definition VersionByteSeed : VersionByte := xff.

Definition checkValidVersionByte (version : VersionByte) : Result unit :=
  if Byte.eqb version VersionByteAccountID then Ok tt
  else if Byte.eqb version VersionByteSeed then Ok tt
  else Err ErrInvalidVersionByte.

Definition decodeString (src : string) : Result bytes :=
  match base58.FastBase58Decoding src with
  | inl cause => Err (ErrBase58DecodeFailed cause)
  | inr raw =>
      if List.length raw <? 3 then Err (ErrEncodedTooShort (List.length raw))
      else Ok raw
  end.

Definition Decode (expected : VersionByte) (src : string) : Result bytes :=
  checkValidVersionByte expected ;;
  raw <- decodeString src ;;
  let version := hd x00 raw in
  let vp := slice 0 (List.length raw - 2) raw in
  let payload := slice 1 (List.length raw - 2) raw in
  let checksum := skipn (List.length raw - 2) raw in
  if negb (Byte.eqb version expected) then Err ErrInvalidVersionByte
  else
    crc16.Validate vp checksum ;;
    Ok payload.

(** [MustDecode] is like [Decode], but panics on error. *)
Definition MustDecode (expected : VersionByte) (src : string) : Outcome bytes :=
  match Decode expected src with
  | Ok d => Returned d
  | Err e => Panicked e
  end.

Definition Encode (version : VersionByte) (src : bytes) : Result string :=
  checkValidVersionByte version ;;
  let raw := [version] ++ src in
  let checksum := crc16.Checksum raw in
  Ok (base58.FastBase58Encoding (raw ++ checksum)).

(** [MustEncode] is like [Encode], but panics on error. *)
Definition MustEncode (version : VersionByte) (src : bytes) : Outcome string :=
  match Encode version src with
  | Ok e => Returned e
  | Err e => Panicked e
  end.

Definition Version (src : string) : Result VersionByte :=
  raw <- decodeString src ;;
  Ok (hd x00 raw).

End key.

(** ** Calls and their log

    The account and wallet operations are run in a small monad that records,
    in order, every call made to [key.Decode] and to the external primitives
    (ed25519, bip39), and that stops at the first panic.  The log is what
    "attempts", "invokes" and "before any ... work" are stated on. *)
Inductive Call : Type :=
| CallKeyDecode (expected : key.VersionByte) (src : string)
| CallEd25519GenerateKey (rand : bytes)
| CallEd25519Sign (priv message : bytes)
| CallEd25519Verify (pub message sig : bytes)
| CallBip39NewEntropy (bitSize : Z)
| CallBip39NewMnemonic (entropy : bytes).

Definition Run (A : Type) : Type := (Outcome A * list Call)%type.

Definition ret {A : Type} (a : A) : Run A := (Returned a, []).

Definition panic {A : Type} (e : error) : Run A := (Panicked e, []).

Definition bind {A B : Type} (m : Run A) (k : A -> Run B) : Run B :=
  match m with
  | (Returned a, log) => let (o, log') := k a in (o, log ++ log')
  | (Panicked e, log) => (Panicked e, log)
  end.

(** One logged call with the given outcome. *)
Definition call {A : Type} (c : Call) (o : Outcome A) : Run A := (o, [c]).

Definition outcome {A : Type} (m : Run A) : Outcome A := fst m.
Definition calls {A : Type} (m : Run A) : list Call := snd m.

Declare Scope run_scope.
Delimit Scope run_scope with run.
Notation "x <- m ;; k" := (bind m (fun x => k))
  (at level 61, m at next level, right associativity) : run_scope.

(** ** External primitives *)

(** [golang.org/x/crypto/ed25519]: sizes, and the three routines as an
    interface.  [NewKeyFromSeed] gives the 64-byte private key of a 32-byte
    seed; its last 32 bytes are the public key. *)
Definition ed25519_PublicKeySize : nat := 32.
Definition ed25519_PrivateKeySize : nat := 64.
Definition ed25519_SignatureSize : nat := 64.
Definition ed25519_SeedSize : nat := 32.

Class Ed25519 : Type := {
  ed25519_NewKeyFromSeed : bytes -> bytes;
  ed25519_Sign : bytes -> bytes -> bytes;
  ed25519_Verify : bytes -> bytes -> bytes -> bool
}.

(** [ed25519.GenerateKey(rand)] on a reader holding the bytes [rand]: it
    reads [SeedSize] bytes in full ([io.ReadFull]) or reports the reader's
    error, [io.EOF] on an empty reader and [io.ErrUnexpectedEOF] on a short
    one. *)
Definition ed25519_GenerateKey `{Ed25519} (rand : bytes) : Result (bytes * bytes) :=
  if List.length rand =? 0 then Err ErrEOF
  else if List.length rand <? ed25519_SeedSize then Err ErrUnexpectedEOF
  else
    let privateKey := ed25519_NewKeyFromSeed (firstn ed25519_SeedSize rand) in
    Ok (slice 32 64 privateKey, privateKey).

(** [github.com/tyler-smith/go-bip39]: the entropy one run draws for a bit
    size (or the error of the draw), and the mnemonic of an entropy. *)
Class Bip39 : Type := {
  bip39_NewEntropy : Z -> Result bytes;
  bip39_NewMnemonic : bytes -> Result string
}.

(** ** Package account (account/main.go, full.go, from_address.go) *)
Module account.
Local Open Scope run_scope.

(** An account to which only the address is known. *)
Record FromAddress : Type := { address : string }.

(** A full account, which holds the seed. *)
Record Full : Type := { seed : string }.

(** A value of the interface [Account]: a [*FromAddress] or a [*Full]. *)
Inductive Account : Type :=
| AccountFromAddress (kp : FromAddress)
| AccountFull (kp : Full).

Definition call_Decode (expected : key.VersionByte) (src : string)
  : Run (Result bytes) :=
  call (CallKeyDecode expected src) (Returned (key.Decode expected src)).

Definition call_MustDecode (expected : key.VersionByte) (src : string)
  : Run bytes :=
  call (CallKeyDecode expected src) (key.MustDecode expected src).

(** [var a [n]byte; copy(a[:], src)]. *)
Definition copy_array (n : nat) (src : bytes) : bytes :=
  firstn n (src ++ repeat x00 n).

Definition Parse (addressOrSeed : string) : Run (Result Account) :=
  r <- call_Decode key.VersionByteAccountID addressOrSeed ;;
  match r with
  | Ok _ => ret (Ok (AccountFromAddress {| address := addressOrSeed |}))
  | Err err =>
      if negb (is_ErrInvalidVersionByte err) then ret (Err err)
      else
        r' <- call_Decode key.VersionByteSeed addressOrSeed ;;
        match r' with
        | Ok _ => ret (Ok (AccountFull {| seed := addressOrSeed |}))
        | Err err' => ret (Err err')
        end
  end.

(** [FromRawSeed(rawSeed [32]byte)]. *)
Definition FromRawSeed (rawSeed : bytes) : Result Full :=
  match key.Encode key.VersionByteSeed rawSeed with
  | Err err => Err err
  | Ok seed => Ok {| seed := seed |}
  end.

(** [MustParse] is the panic-on-fail version of [Parse]. *)
Definition MustParse (addressOrSeed : string) : Run Account :=
  r <- Parse addressOrSeed ;;
  match r with
  | Err err => panic err
  | Ok kp => ret kp
  end.

(** [Random], given what [io.ReadFull(rand.Reader, rawSeed[:])] delivers:
    the 32 bytes read, or the error of the read. *)
Definition Random (read : Result bytes) : Outcome Full :=
  match read with
  | Err err => Panicked err
  | Ok rawSeed =>
      match FromRawSeed rawSeed with
      | Err err => Panicked err
      | Ok kp => Returned kp
      end
  end.

(** The Go slice expression [l[lo:]]: a run-time panic when [lo] exceeds the
    length. *)
Definition slice_from (lo : nat) (l : bytes) : Run bytes :=
  if List.length l <? lo
  then panic (ErrExternal "slice bounds out of range")
  else ret (skipn lo l).

Section Methods.
Context `{Ed25519}.

(** *** FromAddress *)

Definition FromAddress_Address (kp : FromAddress) : string := address kp.

Definition FromAddress_Seed (kp : FromAddress) : Result string :=
  Err ErrNoSeed.

Definition FromAddress_publicKey (kp : FromAddress) : Run bytes :=
  bs <- call_MustDecode key.VersionByteAccountID (address kp) ;;
  ret (copy_array ed25519_PublicKeySize bs).

Definition FromAddress_Verify (kp : FromAddress) (input sig : bytes)
  : Run (Result unit) :=
  if negb (List.length sig =? ed25519_PrivateKeySize)
  then ret (Err ErrInvalidSignature)
  else
    let asig := copy_array ed25519_PrivateKeySize sig in
    pub <- FromAddress_publicKey kp ;;
    ok <- call (CallEd25519Verify pub input asig)
               (Returned (ed25519_Verify pub input asig)) ;;
    if negb ok then ret (Err ErrInvalidSignature) else ret (Ok tt).

Definition FromAddress_Sign (kp : FromAddress) (input : bytes)
  : Run (Result bytes) :=
  ret (Err ErrCannotSign).

Definition FromAddress_Decrypt (kp : FromAddress) (input : bytes)
  : Run (Result bytes) :=
  ret (Err ErrCannotDecrypt).

(** *** Full *)

Definition Full_rawSeed (kp : Full) : Run bytes :=
  call_MustDecode key.VersionByteSeed (seed kp).

Definition Full_keys (kp : Full) : Run (bytes * bytes) :=
  reader <- Full_rawSeed kp ;;
  r <- call (CallEd25519GenerateKey reader)
            (Returned (ed25519_GenerateKey reader)) ;;
  match r with
  | Err err => panic err
  | Ok (pub, priv) => ret (pub, priv)
  end.

Definition Full_publicKey (kp : Full) : Run bytes :=
  keys <- Full_keys kp ;;
  ret (fst keys).

Definition Full_Address (kp : Full) : Run string :=
  pub <- Full_publicKey kp ;;
  (key.MustEncode key.VersionByteAccountID pub, []).

Definition Full_Seed (kp : Full) : Result string := Ok (seed kp).

Definition Full_Verify (kp : Full) (input sig : bytes) : Run (Result unit) :=
  if negb (List.length sig =? ed25519_PrivateKeySize)
  then ret (Err ErrInvalidSignature)
  else
    let asig := copy_array ed25519_PrivateKeySize sig in
    pub <- Full_publicKey kp ;;
    ok <- call (CallEd25519Verify pub input asig)
               (Returned (ed25519_Verify pub input asig)) ;;
    if negb ok then ret (Err ErrInvalidSignature) else ret (Ok tt).

Definition Full_Sign (kp : Full) (input : bytes) : Run (Result bytes) :=
  keys <- Full_keys kp ;;
  let priv := snd keys in
  sig <- call (CallEd25519Sign priv input)
              (Returned (ed25519_Sign priv input)) ;;
  ret (Ok sig).

(** *** The hint: the last four bytes of the public key *)

Definition FromAddress_Hint (kp : FromAddress) : Run bytes :=
  pub <- FromAddress_publicKey kp ;;
  tail <- slice_from 28 pub ;;
  ret (copy_array 4 tail).

Definition Full_Hint (kp : Full) : Run bytes :=
  pub <- Full_publicKey kp ;;
  tail <- slice_from 28 pub ;;
  ret (copy_array 4 tail).

(** *** Calls through the interface *)

Definition Seed (a : Account) : Result string :=
  match a with
  | AccountFromAddress kp => FromAddress_Seed kp
  | AccountFull kp => Full_Seed kp
  end.

Definition Verify (a : Account) (input sig : bytes) : Run (Result unit) :=
  match a with
  | AccountFromAddress kp => FromAddress_Verify kp input sig
  | AccountFull kp => Full_Verify kp input sig
  end.

Definition Sign (a : Account) (input : bytes) : Run (Result bytes) :=
  match a with
  | AccountFromAddress kp => FromAddress_Sign kp input
  | AccountFull kp => Full_Sign kp input
  end.

End Methods.

End account.

(** ** What account derivation rests on *)

(** Equality of error values, for the comparisons with a sentinel. *)
Definition error_eq_dec (a b : error) : {a = b} + {a <> b}.
Proof.
  decide equality;
    try apply string_dec; try apply Nat.eq_dec.
  decide equality. apply ascii_dec.
Defined.

(** [bip39.NewSeedWithErrorChecking] and the sentinel [bip39.ErrInvalidMnemonic]
    it returns for a phrase that fails validation. *)
Class Bip39Seed : Type := {
  bip39_ErrInvalidMnemonic : error;
  bip39_NewSeedWithErrorChecking : string -> string -> Result bytes
}.

(** The derivation code of the wallet package ([DeriveForPath], [Key.Derive],
    [Key.RawSeed] and the constants [TextileAccountPrefix] and
    [FirstHardenedIndex]) is used by [DeriveAccount] but is not among the
    sources at hand: it is a parameter. *)
Class Derivation : Type := {
  Key : Type;
  TextileAccountPrefix : string;
  FirstHardenedIndex : Z;
  DeriveForPath : string -> bytes -> Result Key;
  Derive : Key -> Z -> Result Key;
  RawSeed : Key -> bytes
}.

(** The conversion [uint32(x)] of a Go [int], and the sum of two [uint32]
    values: both wrap around modulo 2^32. *)
Definition uint32 (x : Z) : Z := (x mod 2 ^ 32)%Z.
Definition uint32_add (a b : Z) : Z := ((a + b) mod 2 ^ 32)%Z.

(** ** Package wallet (the word counts and the wallet constructors) *)
Module wallet.
Local Open Scope Z_scope.
Local Open Scope run_scope.

(** The number of words in a mnemonic, [type WordCount int]. *)
Definition WordCount := Z.

Definition TwelveWords : WordCount := 12.
Definition FifteenWords : WordCount := 15.
Definition EighteenWords : WordCount := 18.
Definition TwentyOneWords : WordCount := 21.
Definition TwentyFourWords : WordCount := 24.

Definition NewWordCount (count : Z) : Result WordCount :=
  match count with
  | 12 => Ok TwelveWords
  | 15 => Ok FifteenWords
  | 18 => Ok EighteenWords
  | 21 => Ok TwentyOneWords
  | 24 => Ok TwentyFourWords
  | _ => Err ErrInvalidWordCount
  end.

Definition EntropySize (w : WordCount) : Z :=
  match w with
  | 12 => 128
  | 15 => 160
  | 18 => 192
  | 21 => 224
  | 24 => 256
  | _ => 256
  end.

Record Wallet : Type := { RecoveryPhrase : string }.

Section Constructors.
Context `{Bip39}.

Definition FromEntropy (entropySize : Z) : Run (Result Wallet) :=
  r <- call (CallBip39NewEntropy entropySize)
            (Returned (bip39_NewEntropy entropySize)) ;;
  match r with
  | Err err => ret (Err err)
  | Ok entropy =>
      r' <- call (CallBip39NewMnemonic entropy)
                 (Returned (bip39_NewMnemonic entropy)) ;;
      match r' with
      | Err err => ret (Err err)
      | Ok mnemonic => ret (Ok {| RecoveryPhrase := mnemonic |})
      end
  end.

Definition FromWordCount (wordCount : Z) : Run (Result Wallet) :=
  match NewWordCount wordCount with
  | Err err => ret (Err err)
  | Ok wcount => FromEntropy (EntropySize wcount)
  end.

End Constructors.

Definition FromMnemonic (mnemonic : string) : Wallet :=
  {| RecoveryPhrase := mnemonic |}.

Section Deriving.
Context `{Bip39Seed} `{Derivation}.

Definition DeriveAccount (w : Wallet) (index : Z) (passphrase : string)
  : Result account.Full :=
  match bip39_NewSeedWithErrorChecking (RecoveryPhrase w) passphrase with
  | Err err =>
      if error_eq_dec err bip39_ErrInvalidMnemonic
      then Err (ErrExternal "invalid mnemonic phrase")
      else Err err
  | Ok seed =>
      match DeriveForPath TextileAccountPrefix seed with
      | Err err => Err err
      | Ok masterKey =>
          match Derive masterKey (uint32_add FirstHardenedIndex (uint32 index)) with
          | Err err => Err err
          | Ok key => account.FromRawSeed (RawSeed key)
          end
      end
  end.

End Deriving.

End wallet.

(** ** Vocabulary of the properties *)

(** The two version tags a caller may ask for. *)
Definition valid_version (t : key.VersionByte) : Prop :=
  t = key.VersionByteAccountID \/ t = key.VersionByteSeed.

(** The table of the design document: "word counts 12/15/18/21/24 map to
    entropy sizes 128/160/192/224/256 bits respectively". *)
Definition spec_word_counts : list (Z * Z) :=
  [(12, 128); (15, 160); (18, 192); (21, 224); (24, 256)]%Z.

(** Two small instances of the external interfaces, to run the operations
    on concrete inputs.  They are not the real primitives: a private key is
    the seed twice, a signature the first 64 bytes of key and message. *)
Definition Ed25519_sample : Ed25519 := {|
  ed25519_NewKeyFromSeed := fun seed => (seed ++ seed)%list;
  ed25519_Sign := fun priv message =>
    account.copy_array 64 (priv ++ message)%list;
  ed25519_Verify := fun pub message sig =>
    bytes_Equal sig (account.copy_array 64 (pub ++ pub ++ message)%list)
|}.

Definition Bip39_sample : Bip39 := {|
  bip39_NewEntropy := fun bitSize => Ok (repeat x00 (Z.to_nat (bitSize / 8)));
  bip39_NewMnemonic := fun entropy => Ok "abandon"%string
|}.

(** Instances of the seed and derivation interfaces to run [DeriveAccount]
    on: not the real routines.  The seed routine rejects the empty phrase,
    the derivation refuses indices below 2^31 and otherwise puts the low byte
    of the index in front of the parent key. *)
Definition Bip39Seed_sample : Bip39Seed := {|
  bip39_ErrInvalidMnemonic := ErrExternal "Invalid mnenomic"%string;
  bip39_NewSeedWithErrorChecking := fun mnemonic passphrase =>
    if String.eqb mnemonic ""%string then Err (ErrExternal "Invalid mnenomic"%string)
    else Ok (repeat x07 64)
|}.

Definition Derivation_sample : Derivation := {|
  Key := bytes;
  TextileAccountPrefix := "m/44'/406'"%string;
  FirstHardenedIndex := 0x80000000;
  DeriveForPath := fun path seed => Ok seed;
  Derive := fun key i =>
    if (i <? 0x80000000)%Z then Err (ErrExternal "not hardened"%string)
    else Ok (byte_of_N (Z.to_N i) :: key);
  RawSeed := fun key => account.copy_array 32 key
|}.

(** * Lemmas *)

(** ** Positional numerals *)
Section RadixFacts.
Import Radix.
Local Open Scope N_scope.
Variable base : N.
Hypothesis base_gt1 : 1 < base.

Lemma from_digits_snoc ds d :
  from_digits base (ds ++ [d]) = from_digits base ds * base + d.
Proof. unfold from_digits. rewrite fold_left_app. reflexivity. Qed.

Lemma to_digits_fuel_acc fuel : forall n acc,
  to_digits_fuel base fuel n acc = (to_digits_fuel base fuel n [] ++ acc)%list.
Proof.
  induction fuel as [|fuel IH]; intros n acc; simpl; [reflexivity|].
  destruct (n =? 0); [reflexivity|].
  rewrite (IH _ (_ :: acc)), (IH _ [_]), <- app_assoc. reflexivity.
Qed.

Lemma size_div_lt n : n <> 0 -> N.size (n / base) < N.size n.
Proof.
  intros Hn.
  assert (Hle : 2 * (n / base) <= n).
  { transitivity (base * (n / base)).
    - apply N.mul_le_mono_r. lia.
    - apply N.Div0.mul_div_le. }
  destruct (N.eq_dec (n / base) 0) as [Hz|Hz].
  - rewrite Hz, (N.size_log2 n Hn). apply N.lt_0_succ.
  - rewrite (N.size_log2 n Hn), (N.size_log2 _ Hz).
    apply -> N.succ_lt_mono.
    apply N.lt_le_trans with (N.log2 (2 * (n / base))).
    + rewrite N.log2_double by (apply N.neq_0_lt_0; exact Hz).
      apply N.lt_succ_diag_r.
    + apply N.log2_le_mono. exact Hle.
Qed.

Lemma to_digits_fuel_enough f1 : forall f2 n acc,
  (N.to_nat (N.size n) <= f1)%nat -> (N.to_nat (N.size n) <= f2)%nat ->
  to_digits_fuel base f1 n acc = to_digits_fuel base f2 n acc.
Proof.
  induction f1 as [|f1 IH]; intros f2 n acc H1 H2.
  - assert (n = 0) as -> by (destruct n; simpl in *; [reflexivity|lia]).
    destruct f2; reflexivity.
  - destruct f2 as [|f2].
    + assert (n = 0) as -> by (destruct n; simpl in *; [reflexivity|lia]).
      reflexivity.
    + simpl. destruct (N.eqb_spec n 0) as [|Hn]; [reflexivity|].
      pose proof (size_div_lt n Hn).
      apply IH; lia.
Qed.

Lemma to_digits_zero : to_digits base 0 = [].
Proof. reflexivity. Qed.

Lemma to_digits_step n :
  n <> 0 -> to_digits base n = (to_digits base (n / base) ++ [n mod base])%list.
Proof.
  intros Hn. unfold to_digits.
  pose proof (size_div_lt n Hn) as Hlt.
  destruct (N.to_nat (N.size n)) as [|f] eqn:Ef; [lia|].
  simpl. destruct (N.eqb_spec n 0) as [|_]; [contradiction|].
  rewrite to_digits_fuel_acc. f_equal.
  apply to_digits_fuel_enough; lia.
Qed.

Lemma from_to_digits n : from_digits base (to_digits base n) = n.
Proof.
  induction n as [n IH] using (well_founded_induction N.lt_wf_0).
  destruct (N.eq_dec n 0) as [->|Hn]; [reflexivity|].
  rewrite (to_digits_step n Hn), from_digits_snoc, IH.
  - symmetry. rewrite N.mul_comm. apply N.div_mod. lia.
  - apply N.div_lt; lia.
Qed.

Lemma to_digits_bounded n : Forall (fun d => d < base) (to_digits base n).
Proof.
  induction n as [n IH] using (well_founded_induction N.lt_wf_0).
  destruct (N.eq_dec n 0) as [->|Hn]; [constructor|].
  rewrite (to_digits_step n Hn). apply Forall_app. split.
  - apply IH. apply N.div_lt; lia.
  - constructor; [|constructor]. apply N.mod_lt. lia.
Qed.

Lemma to_digits_nonempty n : n <> 0 -> to_digits base n <> [].
Proof.
  intros Hn. rewrite (to_digits_step n Hn).
  destruct (to_digits base (n / base)); discriminate.
Qed.

Lemma to_digits_head n : hd_error (to_digits base n) <> Some 0.
Proof.
  induction n as [n IH] using (well_founded_induction N.lt_wf_0).
  destruct (N.eq_dec n 0) as [->|Hn]; [discriminate|].
  rewrite (to_digits_step n Hn).
  destruct (N.eq_dec (n / base) 0) as [Hq|Hq].
  - rewrite Hq. simpl. intros [= Hm].
    apply Hn. rewrite (N.div_mod n base) by lia. rewrite Hq, Hm. lia.
  - pose proof (to_digits_nonempty (n / base) Hq) as Hne.
    specialize (IH (n / base) ltac:(apply N.div_lt; lia)).
    destruct (to_digits base (n / base)); [contradiction|exact IH].
Qed.

Lemma from_digits_ge_fold ds : forall a,
  a <= fold_left (fun acc d => acc * base + d) ds a.
Proof.
  induction ds as [|d ds IH]; intros a; simpl; [lia|].
  etransitivity; [|apply IH]. nia.
Qed.

Lemma from_digits_nonzero ds :
  ds <> [] -> hd_error ds <> Some 0 -> from_digits base ds <> 0.
Proof.
  destruct ds as [|d ds]; [contradiction|]. intros _ Hd.
  unfold from_digits. simpl.
  pose proof (from_digits_ge_fold ds d).
  assert (d <> 0) by (intros ->; apply Hd; reflexivity). lia.
Qed.

Lemma to_from_digits ds :
  Forall (fun d => d < base) ds -> hd_error ds <> Some 0 ->
  to_digits base (from_digits base ds) = ds.
Proof.
  induction ds as [|d ds IH] using rev_ind; intros Hb Hh; [reflexivity|].
  apply Forall_app in Hb. destruct Hb as [Hb Hd]. inversion_clear Hd as [|? ? Hd' _].
  assert (Hnz : from_digits base (ds ++ [d]) <> 0).
  { apply from_digits_nonzero; [destruct ds; discriminate|exact Hh]. }
  rewrite (to_digits_step _ Hnz), from_digits_snoc.
  assert (Hq : (from_digits base ds * base + d) / base = from_digits base ds).
  { rewrite N.div_add_l by lia. rewrite N.div_small by exact Hd'. lia. }
  assert (Hm : (from_digits base ds * base + d) mod base = d).
  { rewrite N.add_comm, N.Div0.mod_add. apply N.mod_small. exact Hd'. }
  rewrite Hq, Hm, IH; [reflexivity|exact Hb|].
  destruct ds; [discriminate|exact Hh].
Qed.

Lemma from_digits_leading_zeros z ds :
  from_digits base (repeat 0 z ++ ds) = from_digits base ds.
Proof.
  induction z as [|z IH]; [reflexivity|].
  simpl. unfold from_digits in *. simpl. exact IH.
Qed.

Lemma leading_zeros_repeat z ds :
  hd_error ds <> Some 0 -> leading_zeros (repeat 0 z ++ ds) = z.
Proof.
  intros Hh. induction z as [|z IH]; simpl.
  - destruct ds as [|d ds]; [reflexivity|]. simpl.
    destruct (N.eqb_spec d 0) as [->|]; [exfalso; apply Hh; reflexivity|reflexivity].
  - rewrite IH. reflexivity.
Qed.

End RadixFacts.

(** ** Bytes and base58 *)
Lemma byte_of_N_to_N b : byte_of_N (Byte.to_N b) = b.
Proof.
  unfold byte_of_N. pose proof (Byte.to_N_bounded b).
  rewrite N.mod_small by lia. rewrite Byte.of_to_N. reflexivity.
Qed.

Lemma map_byte_of_N_to_N bs : map byte_of_N (map Byte.to_N bs) = bs.
Proof.
  rewrite map_map. rewrite <- (map_id bs) at 2.
  apply map_ext. exact byte_of_N_to_N.
Qed.

Lemma to_N_bounded_all bs : Forall (fun d => (d < 256)%N) (map Byte.to_N bs).
Proof.
  apply Forall_map, Forall_forall. intros b _.
  pose proof (Byte.to_N_bounded b). lia.
Qed.

Lemma bytes_Equal_eq a : forall b, bytes_Equal a b = true <-> a = b.
Proof.
  induction a as [|x a IH]; intros [|y b]; simpl; split; try easy.
  - intros [Hxy Hab]%andb_true_iff.
    apply Byte.byte_dec_bl in Hxy. apply IH in Hab. congruence.
  - intros [= -> ->]. apply andb_true_iff. split.
    + apply Byte.byte_dec_lb. reflexivity.
    + apply IH. reflexivity.
Qed.

Lemma to_N_zero b : Byte.to_N b = 0%N -> b = x00.
Proof.
  intros Hb. rewrite <- (byte_of_N_to_N b), Hb. reflexivity.
Qed.

Section Base58Facts.
Import base58.
Local Open Scope N_scope.

Lemma decode_encode_digit d : d < 58 -> decode_digit (encode_digit d) = Some d.
Proof.
  intros Hd. destruct d as [|p]; [reflexivity|].
  do 6 (try (destruct p as [p|p|]; try (exfalso; lia); try reflexivity)).
Qed.

Lemma encode_digit_zero d : d < 58 -> encode_digit d = zero -> d = 0.
Proof.
  intros Hd He.
  pose proof (decode_encode_digit d Hd) as Hdec. rewrite He in Hdec.
  compute in Hdec. congruence.
Qed.

Lemma decode_digits_encoded z ds :
  Forall (fun d => d < 58) ds ->
  decode_digits (repeat zero z ++ map encode_digit ds) = inr (repeat 0 z ++ ds)%list.
Proof.
  intros Hds. induction z as [|z IH].
  - simpl. induction Hds as [|d ds Hd _ IH]; [reflexivity|].
    simpl. rewrite (decode_encode_digit d Hd), IH. reflexivity.
  - change (repeat zero (S z) ++ map encode_digit ds)%list
      with (zero :: (repeat zero z ++ map encode_digit ds))%list.
    simpl decode_digits. change (decode_digit zero) with (Some 0).
    cbv iota. rewrite IH. reflexivity.
Qed.

Lemma zcount_split bin :
  bin = (repeat x00 (zcount bin) ++ skipn (zcount bin) bin)%list.
Proof.
  induction bin as [|b bin IH]; [reflexivity|].
  simpl. destruct (Byte.eqb b x00) eqn:Eb; [|reflexivity].
  apply Byte.byte_dec_bl in Eb. subst b. simpl. f_equal. exact IH.
Qed.

Lemma zcount_rest_head bin :
  hd_error (map Byte.to_N (skipn (zcount bin) bin)) <> Some 0.
Proof.
  induction bin as [|b bin IH]; [discriminate|].
  simpl. destruct (Byte.eqb b x00) eqn:Eb; [exact IH|].
  simpl. intros [= Hb]. apply to_N_zero in Hb. subst b. discriminate.
Qed.

Lemma encoded_chars_nonempty bin :
  bin <> [] ->
  (repeat zero (zcount bin) ++
   map encode_digit
     (Radix.to_digits 58
        (Radix.from_digits 256 (map Byte.to_N (skipn (zcount bin) bin)))))%list
  <> [].
Proof.
  destruct bin as [|b bin']; [contradiction|]. intros _.
  pose proof (zcount_rest_head (b :: bin')) as Hhd. revert Hhd.
  simpl zcount. destruct (Byte.eqb b x00); [discriminate|].
  intros Hhd. simpl repeat. simpl app.
  assert (Hn : Radix.from_digits 256 (map Byte.to_N (skipn 0 (b :: bin'))) <> 0).
  { apply from_digits_nonzero; [lia|discriminate|exact Hhd]. }
  apply (to_digits_nonempty 58) in Hn; [|lia].
  destruct (Radix.to_digits 58 _); [contradiction|discriminate].
Qed.

(** Decoding undoes encoding, on every non-empty byte string. *)
Lemma FastBase58_roundtrip bin :
  bin <> [] -> FastBase58Decoding (FastBase58Encoding bin) = inr bin.
Proof.
  intros Hne. pose proof (encoded_chars_nonempty bin Hne) as Hchars.
  unfold FastBase58Encoding, FastBase58Decoding.
  set (z := zcount bin) in *.
  set (rest := map Byte.to_N (skipn z bin)) in *.
  set (n := Radix.from_digits 256 rest) in *.
  set (ds := Radix.to_digits 58 n) in *.
  assert (Hds : Forall (fun d => d < 58) ds) by (apply to_digits_bounded; lia).
  assert (Hhd : hd_error ds <> Some 0) by (apply to_digits_head; lia).
  pose proof (list_ascii_of_string_of_list_ascii
                (repeat zero z ++ map encode_digit ds)) as Hl.
  destruct (string_of_list_ascii (repeat zero z ++ map encode_digit ds))
    as [|c s] eqn:Hstr.
  { simpl in Hl. congruence. }
  rewrite Hl, decode_digits_encoded by exact Hds.
  rewrite leading_zeros_repeat by exact Hhd.
  rewrite from_digits_leading_zeros.
  subst ds. rewrite from_to_digits by lia.
  subst n. rewrite to_from_digits.
  - subst rest. rewrite map_byte_of_N_to_N. subst z.
    rewrite <- zcount_split. reflexivity.
  - lia.
  - apply to_N_bounded_all.
  - apply zcount_rest_head.
Qed.

End Base58Facts.

(** ** The key codec *)
Section KeyFacts.
Import key.

Lemma checkValidVersionByte_ok t :
  valid_version t -> checkValidVersionByte t = Ok tt.
Proof. intros [-> | ->]; reflexivity. Qed.

Lemma checkValidVersionByte_ok_inv t :
  checkValidVersionByte t = Ok tt -> valid_version t.
Proof.
  unfold checkValidVersionByte, valid_version.
  destruct (Byte.eqb t VersionByteAccountID) eqn:Ea.
  { left. apply Byte.byte_dec_bl. exact Ea. }
  destruct (Byte.eqb t VersionByteSeed) eqn:Es; [|discriminate].
  right. apply Byte.byte_dec_bl. exact Es.
Qed.

Lemma checkValidVersionByte_err v :
  v <> VersionByteAccountID -> v <> VersionByteSeed ->
  checkValidVersionByte v = Err ErrInvalidVersionByte.
Proof.
  intros Ha Hs. unfold checkValidVersionByte.
  destruct (Byte.eqb v VersionByteAccountID) eqn:Ea.
  { apply Byte.byte_dec_bl in Ea. contradiction. }
  destruct (Byte.eqb v VersionByteSeed) eqn:Es; [|reflexivity].
  apply Byte.byte_dec_bl in Es. contradiction.
Qed.

Lemma Checksum_length data : List.length (crc16.Checksum data) = 2.
Proof. reflexivity. Qed.

Lemma Validate_ok_iff data expected :
  crc16.Validate data expected = Ok tt <-> expected = crc16.Checksum data.
Proof.
  unfold crc16.Validate.
  destruct (bytes_Equal (crc16.Checksum data) expected) eqn:E.
  - apply bytes_Equal_eq in E. split; congruence.
  - split; [discriminate|]. intros ->.
    rewrite (proj2 (bytes_Equal_eq _ _) eq_refl) in E. discriminate.
Qed.

Lemma Validate_err data expected :
  expected <> crc16.Checksum data ->
  crc16.Validate data expected = Err ErrInvalidChecksum.
Proof.
  intros Hne. unfold crc16.Validate.
  destruct (bytes_Equal (crc16.Checksum data) expected) eqn:E; [|reflexivity].
  apply bytes_Equal_eq in E. congruence.
Qed.

(** The three components [Decode] cuts a raw key into. *)
Lemma raw_components (t : byte) (p cs : bytes) :
  List.length cs = 2 ->
  let raw := ([t] ++ p ++ cs)%list in
  slice 0 (List.length raw - 2) raw = ([t] ++ p)%list /\
  slice 1 (List.length raw - 2) raw = p /\
  skipn (List.length raw - 2) raw = cs.
Proof.
  intros Hcs raw. subst raw. unfold slice.
  assert (Hlen : List.length ([t] ++ p ++ cs) - 2 = S (List.length p)).
  { simpl. rewrite length_app. lia. }
  rewrite Hlen. repeat split.
  - change ([t] ++ p ++ cs)%list with (t :: (p ++ cs))%list.
    simpl. f_equal.
    rewrite firstn_app, Nat.sub_diag, firstn_all. simpl. apply app_nil_r.
  - simpl. rewrite Nat.sub_0_r.
    rewrite firstn_app, Nat.sub_diag, firstn_all. simpl. apply app_nil_r.
  - simpl. rewrite skipn_app, Nat.sub_diag, skipn_all. reflexivity.
Qed.

Lemma Decode_unfold t src :
  valid_version t ->
  Decode t src =
  match base58.FastBase58Decoding src with
  | inl cause => Err (ErrBase58DecodeFailed cause)
  | inr raw =>
      if List.length raw <? 3 then Err (ErrEncodedTooShort (List.length raw))
      else if negb (Byte.eqb (hd x00 raw) t) then Err ErrInvalidVersionByte
      else
        match crc16.Validate (slice 0 (List.length raw - 2) raw)
                (skipn (List.length raw - 2) raw) with
        | Ok _ => Ok (slice 1 (List.length raw - 2) raw)
        | Err e => Err e
        end
  end.
Proof.
  intros Ht. unfold Decode, decodeString.
  rewrite (checkValidVersionByte_ok t Ht). simpl.
  destruct (base58.FastBase58Decoding src) as [cause|raw]; [reflexivity|].
  destruct (List.length raw <? 3); reflexivity.
Qed.

Lemma Decode_ok_valid t src p : Decode t src = Ok p -> valid_version t.
Proof.
  unfold Decode. intros Hd. apply checkValidVersionByte_ok_inv.
  destruct (checkValidVersionByte t) as [[]|e]; [reflexivity|discriminate].
Qed.

(** What a successful [Decode] tells about its input. *)
Lemma Decode_ok_inv t src p :
  Decode t src = Ok p ->
  exists raw,
    base58.FastBase58Decoding src = inr raw /\
    3 <= List.length raw /\
    hd x00 raw = t /\
    skipn (List.length raw - 2) raw =
      crc16.Checksum (slice 0 (List.length raw - 2) raw) /\
    p = slice 1 (List.length raw - 2) raw.
Proof.
  intros Hd. pose proof (Decode_ok_valid _ _ _ Hd) as Ht.
  rewrite (Decode_unfold t src Ht) in Hd.
  destruct (base58.FastBase58Decoding src) as [cause|raw]; [discriminate|].
  exists raw. split; [reflexivity|].
  destruct (Nat.ltb_spec (List.length raw) 3) as [|Hlen]; [discriminate|].
  destruct (Byte.eqb (hd x00 raw) t) eqn:Ev; [|discriminate].
  apply Byte.byte_dec_bl in Ev. simpl in Hd.
  destruct (crc16.Validate _ _) as [[]|e] eqn:Hv; [|discriminate].
  apply Validate_ok_iff in Hv. injection Hd as <-. auto.
Qed.

(** [Encode] succeeds on every payload, and [Decode] reads it back. *)
Lemma Encode_Decode t p :
  valid_version t ->
  exists s,
    Encode t p = Ok s /\
    base58.FastBase58Decoding s =
      inr ([t] ++ p ++ crc16.Checksum ([t] ++ p))%list /\
    Decode t s = Ok p.
Proof.
  intros Ht.
  set (raw := ([t] ++ p ++ crc16.Checksum ([t] ++ p))%list).
  exists (base58.FastBase58Encoding raw).
  assert (Hb : base58.FastBase58Decoding (base58.FastBase58Encoding raw) = inr raw).
  { apply FastBase58_roundtrip. discriminate. }
  split; [|split; [exact Hb|]].
  - unfold Encode. rewrite (checkValidVersionByte_ok t Ht). reflexivity.
  - rewrite (Decode_unfold t _ Ht), Hb.
    pose proof (raw_components t p _ (Checksum_length ([t] ++ p))) as Hraw.
    cbv zeta in Hraw. destruct Hraw as (Hvp & Hp & Hcs).
    subst raw. rewrite Hvp, Hp, Hcs.
    replace (List.length ([t] ++ p ++ crc16.Checksum ([t] ++ p)) <? 3) with false.
    2:{ symmetry. apply Nat.ltb_ge.
        rewrite !length_app, Checksum_length. simpl. lia. }
    change (hd x00 ([t] ++ p ++ crc16.Checksum ([t] ++ p))) with t.
    rewrite (@Byte.byte_dec_lb t t eq_refl).
    cbn [negb].
    rewrite (proj2 (Validate_ok_iff ([t] ++ p) _) eq_refl). reflexivity.
Qed.

(** A key encoded under one version is refused under another. *)
Lemma Encode_Decode_other t t' p s :
  valid_version t -> valid_version t' -> t <> t' ->
  Encode t p = Ok s -> Decode t' s = Err ErrInvalidVersionByte.
Proof.
  intros Ht Ht' Hne He.
  destruct (Encode_Decode t p Ht) as (s' & He' & Hb & _).
  assert (s' = s) as -> by congruence.
  rewrite (Decode_unfold t' _ Ht'), Hb.
  replace (List.length ([t] ++ p ++ crc16.Checksum ([t] ++ p)) <? 3) with false.
  2:{ symmetry. apply Nat.ltb_ge. rewrite !length_app, Checksum_length. simpl. lia. }
  change (hd x00 ([t] ++ p ++ crc16.Checksum ([t] ++ p))) with t.
  destruct (Byte.eqb t t') eqn:E; [|reflexivity].
  apply Byte.byte_dec_bl in E. contradiction.
Qed.

End KeyFacts.

(** ** Parsing *)

Local Open Scope string_scope.

Section ParseFacts.
Import key account.

Lemma Parse_unfold s :
  Parse s =
  match Decode VersionByteAccountID s with
  | Ok _ =>
      (Returned (Ok (AccountFromAddress {| address := s |})),
       [CallKeyDecode VersionByteAccountID s])
  | Err e =>
      if is_ErrInvalidVersionByte e then
        (Returned
           match Decode VersionByteSeed s with
           | Ok _ => Ok (AccountFull {| seed := s |})
           | Err e' => Err e'
           end,
         [CallKeyDecode VersionByteAccountID s; CallKeyDecode VersionByteSeed s])
      else (Returned (Err e), [CallKeyDecode VersionByteAccountID s])
  end.
Proof.
  unfold Parse, call_Decode, call, bind, ret.
  destruct (Decode VersionByteAccountID s) as [p|e]; [reflexivity|].
  destruct (is_ErrInvalidVersionByte e); [|reflexivity].
  destruct (Decode VersionByteSeed s); reflexivity.
Qed.

Lemma is_ErrInvalidVersionByte_true e :
  is_ErrInvalidVersionByte e = true <-> e = ErrInvalidVersionByte.
Proof. destruct e; simpl; split; congruence. Qed.

End ParseFacts.

Lemma slice_length {A : Type} (lo hi : nat) (l : list A) :
  hi <= List.length l -> List.length (slice lo hi l) = hi - lo.
Proof.
  intros Hhi. unfold slice. rewrite length_firstn, length_skipn. lia.
Qed.

(** ** Signing, then verifying *)
Lemma copy_array_exact n (src : bytes) :
  List.length src = n -> account.copy_array n src = src.
Proof.
  intros <-. unfold account.copy_array.
  rewrite firstn_app, Nat.sub_diag, firstn_all. simpl. apply app_nil_r.
Qed.

Section SignThenVerify.
Context {E : Ed25519}.

(** The contract of the primitive that signing then verifying relies on. *)
Hypothesis ed25519_sound : forall seed message,
  List.length seed = ed25519_SeedSize ->
  let priv := ed25519_NewKeyFromSeed seed in
  List.length (ed25519_Sign priv message) = ed25519_SignatureSize /\
  ed25519_Verify (slice 32 64 priv) message (ed25519_Sign priv message) = true.

Lemma Full_keys_of_valid_seed kp raw :
  key.Decode key.VersionByteSeed (account.seed kp) = Ok raw ->
  List.length raw = ed25519_SeedSize ->
  account.Full_keys kp =
    (Returned (slice 32 64 (ed25519_NewKeyFromSeed raw), ed25519_NewKeyFromSeed raw),
     [CallKeyDecode key.VersionByteSeed (account.seed kp);
      CallEd25519GenerateKey raw]).
Proof.
  intros Hd Hlen.
  unfold account.Full_keys, account.Full_rawSeed, account.call_MustDecode,
    key.MustDecode, call, bind, ret.
  rewrite Hd. unfold ed25519_GenerateKey. rewrite Hlen, Nat.ltb_irrefl.
  change (Nat.eqb ed25519_SeedSize 0) with false. cbv iota.
  rewrite <- Hlen, firstn_all. reflexivity.
Qed.

(** A full account built on a valid seed string accepts its own signature. *)
Lemma Full_Verify_own_signature kp raw message :
  key.Decode key.VersionByteSeed (account.seed kp) = Ok raw ->
  List.length raw = ed25519_SeedSize ->
  exists sig,
    outcome (account.Full_Sign kp message) = Returned (Ok sig) /\
    outcome (account.Full_Verify kp message sig) = Returned (Ok tt).
Proof.
  intros Hd Hlen.
  destruct (ed25519_sound raw message Hlen) as [Hsz Hok].
  exists (ed25519_Sign (ed25519_NewKeyFromSeed raw) message). split.
  - unfold account.Full_Sign. rewrite (Full_keys_of_valid_seed kp raw Hd Hlen).
    reflexivity.
  - change ed25519_SignatureSize with ed25519_PrivateKeySize in Hsz.
    unfold account.Full_Verify, account.Full_publicKey.
    rewrite (copy_array_exact _ _ Hsz), Hsz, Nat.eqb_refl.
    rewrite (Full_keys_of_valid_seed kp raw Hd Hlen).
    unfold bind, call, ret, outcome. cbn [fst snd negb]. rewrite Hok. reflexivity.
Qed.

End SignThenVerify.

(** The contract is not empty: the sample instance meets it. *)
Lemma Ed25519_sample_sound (seed message : bytes) :
  List.length seed = ed25519_SeedSize ->
  let priv := @ed25519_NewKeyFromSeed Ed25519_sample seed in
  List.length (@ed25519_Sign Ed25519_sample priv message) = ed25519_SignatureSize /\
  @ed25519_Verify Ed25519_sample (slice 32 64 priv) message
    (@ed25519_Sign Ed25519_sample priv message) = true.
Proof.
  intros Hlen. cbn [ed25519_NewKeyFromSeed ed25519_Sign ed25519_Verify Ed25519_sample].
  assert (Hpub : slice 32 64 (seed ++ seed) = seed).
  { unfold slice. change (64 - 32) with 32. change ed25519_SeedSize with 32 in Hlen.
    rewrite skipn_app, skipn_all2 by lia.
    rewrite Hlen, Nat.sub_diag. cbn [app skipn]. apply firstn_all2. lia. }
  rewrite Hpub. split.
  - unfold account.copy_array. rewrite length_firstn, !length_app, repeat_length.
    change ed25519_SignatureSize with 64. lia.
  - apply bytes_Equal_eq. rewrite <- app_assoc. reflexivity.
Qed.

(** ** The model at work *)

(** The check value of CRC-16/XMODEM: the checksum of "123456789" is
    [0x31C3]. *)
Example crc16_check_value :
  crc16.crc [x31; x32; x33; x34; x35; x36; x37; x38; x39] = 0x31C3%Z.
Proof. reflexivity. Qed.

(** The all-zero seed: its encoding starts with 'S', decodes back to the
    seed, and is refused where an address is expected. *)
Example zero_seed_fixture :
  key.Encode key.VersionByteSeed (repeat x00 32) =
    Ok "SSkCuz4p1C2LpyAHxmL4HnpMojTyzjZj6rGUtHzn53dLmV9p" /\
  key.Decode key.VersionByteSeed
    "SSkCuz4p1C2LpyAHxmL4HnpMojTyzjZj6rGUtHzn53dLmV9p" = Ok (repeat x00 32) /\
  key.Decode key.VersionByteAccountID
    "SSkCuz4p1C2LpyAHxmL4HnpMojTyzjZj6rGUtHzn53dLmV9p" = Err ErrInvalidVersionByte.
Proof. repeat split; vm_compute; reflexivity. Qed.

(** Leading zero bytes are kept as leading '1' characters. *)
Example base58_leading_zeros :
  base58.FastBase58Encoding [x00; x00; x01] = "112" /\
  base58.FastBase58Decoding "112" = inr [x00; x00; x01] /\
  base58.FastBase58Decoding "" = inl ZeroLengthString /\
  base58.FastBase58Decoding "0" = inl (InvalidBase58Digit "0"%char).
Proof. repeat split. Qed.

(** * The claims *)

(** C1.  Round trip: for every 32-byte payload [p] and both version tags
    [t], encoding [p] under [t] succeeds and decoding the result with the
    same expected tag gives back exactly [p]. *)
Theorem Decode_Encode_roundtrip (t : key.VersionByte) (p : bytes) :
  t = key.VersionByteAccountID \/ t = key.VersionByteSeed ->
  List.length p = 32 ->
  exists s, key.Encode t p = Ok s /\ key.Decode t s = Ok p.
Proof.
  intros Ht _. destruct (Encode_Decode t p Ht) as (s & He & _ & Hd).
  exists s. split; assumption.
Qed.

Lemma Decode_Encode_roundtrip_witness :
  exists s, key.Encode key.VersionByteSeed (repeat x00 32) = Ok s /\
            key.Decode key.VersionByteSeed s = Ok (repeat x00 32).
Proof.
  apply (Decode_Encode_roundtrip key.VersionByteSeed (repeat x00 32)).
  - right. reflexivity.
  - reflexivity.
Defined.

(** C2.  An address-only account holds no secret: [Sign] fails with
    [ErrCannotSign], [Decrypt] with [ErrCannotDecrypt] and [Seed] with
    [ErrNoSeed], and none of the three ever succeeds. *)
Theorem FromAddress_has_no_secret {E : Ed25519}
    (kp : account.FromAddress) (input : bytes) :
  account.FromAddress_Sign kp input = (Returned (Err ErrCannotSign), []) /\
  account.FromAddress_Decrypt kp input = (Returned (Err ErrCannotDecrypt), []) /\
  account.FromAddress_Seed kp = Err ErrNoSeed /\
  account.Sign (account.AccountFromAddress kp) input =
    (Returned (Err ErrCannotSign), []) /\
  account.Seed (account.AccountFromAddress kp) = Err ErrNoSeed /\
  (forall r log, account.FromAddress_Sign kp input <> (Returned (Ok r), log)) /\
  (forall r log, account.FromAddress_Decrypt kp input <> (Returned (Ok r), log)) /\
  (forall r, account.FromAddress_Seed kp <> Ok r).
Proof. repeat split; try reflexivity; intros; discriminate. Qed.

(** C3.  [Parse] decodes as an address first.  An error of that attempt
    other than the version mismatch is returned as it is, with no second
    attempt; the seed decoding is attempted only after a version mismatch,
    and its error is returned if it fails too. *)
Theorem Parse_decode_attempts (s : string) :
  (exists rest,
     calls (account.Parse s) = CallKeyDecode key.VersionByteAccountID s :: rest) /\
  (forall e, key.Decode key.VersionByteAccountID s = Err e ->
     e <> ErrInvalidVersionByte ->
     account.Parse s =
       (Returned (Err e), [CallKeyDecode key.VersionByteAccountID s])) /\
  (In (CallKeyDecode key.VersionByteSeed s) (calls (account.Parse s)) ->
     key.Decode key.VersionByteAccountID s = Err ErrInvalidVersionByte) /\
  (key.Decode key.VersionByteAccountID s = Err ErrInvalidVersionByte ->
     forall e', key.Decode key.VersionByteSeed s = Err e' ->
     account.Parse s =
       (Returned (Err e'),
        [CallKeyDecode key.VersionByteAccountID s;
         CallKeyDecode key.VersionByteSeed s])).
Proof.
  rewrite Parse_unfold.
  destruct (key.Decode key.VersionByteAccountID s) as [p|e] eqn:Ha.
  - repeat split.
    + eexists. reflexivity.
    + discriminate.
    + simpl. intros [Hc|[]]. discriminate.
    + discriminate.
  - destruct (is_ErrInvalidVersionByte e) eqn:Ee.
    + apply is_ErrInvalidVersionByte_true in Ee. subst e. repeat split.
      * eexists. reflexivity.
      * intros e [= <-] Hne. contradiction.
      * intros _ e' ->. reflexivity.
    + assert (Hne : e <> ErrInvalidVersionByte).
      { intros ->. discriminate. }
      repeat split.
      * eexists. reflexivity.
      * intros e0 [= <-] _. reflexivity.
      * simpl. intros [Hc|[]]. discriminate.
      * intros [= He]. contradiction.
Qed.

Lemma Parse_decode_attempts_witness :
  account.Parse "" =
    (Returned (Err (ErrBase58DecodeFailed ZeroLengthString)),
     [CallKeyDecode key.VersionByteAccountID ""]) /\
  account.Parse "2222" =
    (Returned (Err ErrInvalidVersionByte),
     [CallKeyDecode key.VersionByteAccountID "2222";
      CallKeyDecode key.VersionByteSeed "2222"]).
Proof.
  split.
  - apply (proj1 (proj2 (Parse_decode_attempts ""))).
    + reflexivity.
    + discriminate.
  - apply (proj2 (proj2 (proj2 (Parse_decode_attempts "2222")))).
    + reflexivity.
    + reflexivity.
Defined.

(** C4.  Version discrimination: parsing the encoding of a 32-byte payload
    as a seed gives a full account and never an address-only one; parsing its
    encoding as an address gives an address-only account and never a full
    one. *)
Theorem Parse_discriminates_versions (p : bytes) :
  List.length p = 32 ->
  (exists s, key.Encode key.VersionByteSeed p = Ok s /\
     outcome (account.Parse s) =
       Returned (Ok (account.AccountFull {| account.seed := s |})) /\
     forall kp, outcome (account.Parse s) <>
       Returned (Ok (account.AccountFromAddress kp))) /\
  (exists s, key.Encode key.VersionByteAccountID p = Ok s /\
     outcome (account.Parse s) =
       Returned (Ok (account.AccountFromAddress {| account.address := s |})) /\
     forall kp, outcome (account.Parse s) <>
       Returned (Ok (account.AccountFull kp))).
Proof.
  intros _. split.
  - destruct (Encode_Decode key.VersionByteSeed p (or_intror eq_refl))
      as (s & He & _ & Hd).
    assert (Ha : key.Decode key.VersionByteAccountID s = Err ErrInvalidVersionByte).
    { apply (Encode_Decode_other key.VersionByteSeed key.VersionByteAccountID p s);
        [right; reflexivity|left; reflexivity|discriminate|exact He]. }
    exists s. rewrite Parse_unfold, Ha, Hd. simpl.
    repeat split; [exact He|]. intros kp. discriminate.
  - destruct (Encode_Decode key.VersionByteAccountID p (or_introl eq_refl))
      as (s & He & _ & Hd).
    exists s. rewrite Parse_unfold, Hd. simpl.
    repeat split; [exact He|]. intros kp. discriminate.
Qed.

Lemma Parse_discriminates_versions_witness :
  (exists s, key.Encode key.VersionByteSeed (repeat x00 32) = Ok s /\
     outcome (account.Parse s) =
       Returned (Ok (account.AccountFull {| account.seed := s |})) /\
     forall kp, outcome (account.Parse s) <>
       Returned (Ok (account.AccountFromAddress kp))) /\
  (exists s, key.Encode key.VersionByteAccountID (repeat x00 32) = Ok s /\
     outcome (account.Parse s) =
       Returned (Ok (account.AccountFromAddress {| account.address := s |})) /\
     forall kp, outcome (account.Parse s) <>
       Returned (Ok (account.AccountFull kp))).
Proof.
  apply (Parse_discriminates_versions (repeat x00 32)). reflexivity.
Defined.

(** C5, as stated, fails: the string "2" decodes to the single byte [0x01],
    whose leading byte differs from the expected [0xdd], yet [Decode] reports
    the length error of [decodeString], not [ErrInvalidVersionByte]. *)
Lemma Decode_short_input_error_kind :
  base58.FastBase58Decoding "2" = inr [x01] /\
  hd x00 [x01] <> key.VersionByteAccountID /\
  key.Decode key.VersionByteAccountID "2" = Err (ErrEncodedTooShort 1) /\
  key.Decode key.VersionByteAccountID "2" <> Err ErrInvalidVersionByte.
Proof. repeat split; try reflexivity; discriminate. Qed.

(** C5, amended.  For both expected tags and every string whose base58
    decoding is [raw]: [Decode] fails when [raw] has fewer than 3 bytes; it
    fails with [ErrInvalidVersionByte] when [raw] has at least 3 bytes and its
    leading byte differs from the expected tag; it fails when the trailing
    two bytes differ from the checksum of the preceding ones (with
    [ErrInvalidChecksum] once length and version byte have passed); and it
    succeeds only when none of these conditions holds. *)
Theorem Decode_rejections (t : key.VersionByte) (s : string) :
  t = key.VersionByteAccountID \/ t = key.VersionByteSeed ->
  (forall raw, base58.FastBase58Decoding s = inr raw ->
     List.length raw < 3 ->
     key.Decode t s = Err (ErrEncodedTooShort (List.length raw))) /\
  (forall raw, base58.FastBase58Decoding s = inr raw ->
     3 <= List.length raw -> hd x00 raw <> t ->
     key.Decode t s = Err ErrInvalidVersionByte) /\
  (forall raw, base58.FastBase58Decoding s = inr raw ->
     skipn (List.length raw - 2) raw <>
       crc16.Checksum (slice 0 (List.length raw - 2) raw) ->
     exists e, key.Decode t s = Err e /\
       (3 <= List.length raw -> hd x00 raw = t -> e = ErrInvalidChecksum)) /\
  (forall p, key.Decode t s = Ok p ->
     exists raw, base58.FastBase58Decoding s = inr raw /\
       ~ List.length raw < 3 /\
       ~ hd x00 raw <> t /\
       ~ skipn (List.length raw - 2) raw <>
           crc16.Checksum (slice 0 (List.length raw - 2) raw)).
Proof.
  intros Ht. repeat split.
  - intros raw Hb Hlen. rewrite (Decode_unfold t s Ht), Hb.
    destruct (Nat.ltb_spec (List.length raw) 3); [reflexivity|lia].
  - intros raw Hb Hlen Hv. rewrite (Decode_unfold t s Ht), Hb.
    destruct (Nat.ltb_spec (List.length raw) 3); [lia|].
    destruct (Byte.eqb (hd x00 raw) t) eqn:E; [|reflexivity].
    apply Byte.byte_dec_bl in E. contradiction.
  - intros raw Hb Hcs. rewrite (Decode_unfold t s Ht), Hb.
    destruct (Nat.ltb_spec (List.length raw) 3).
    { eexists. split; [reflexivity|lia]. }
    destruct (Byte.eqb (hd x00 raw) t) eqn:E; simpl.
    + rewrite (Validate_err _ _ Hcs). eexists. split; reflexivity.
    + eexists. split; [reflexivity|]. intros _ Hv.
      rewrite Hv, (@Byte.byte_dec_lb t t eq_refl) in E. discriminate.
  - intros p Hd. destruct (Decode_ok_inv t s p Hd) as (raw & Hb & Hlen & Hv & Hcs & _).
    exists raw. repeat split; [exact Hb|lia|tauto|tauto].
Qed.

Lemma Decode_rejections_witness :
  key.Decode key.VersionByteAccountID "2" = Err (ErrEncodedTooShort 1) /\
  key.Decode key.VersionByteAccountID "2222" = Err ErrInvalidVersionByte /\
  (exists e, key.Decode key.VersionByteSeed "2UeoR" = Err e /\
     (3 <= 3 -> xff = key.VersionByteSeed -> e = ErrInvalidChecksum)) /\
  (exists raw, base58.FastBase58Decoding "2HWGH" = inr raw /\
     ~ List.length raw < 3 /\
     ~ hd x00 raw <> key.VersionByteAccountID /\
     ~ skipn (List.length raw - 2) raw <>
         crc16.Checksum (slice 0 (List.length raw - 2) raw)).
Proof.
  split; [|split; [|split]].
  - apply (proj1 (Decode_rejections key.VersionByteAccountID "2"
                    (or_introl eq_refl)) [x01]); [reflexivity|simpl; lia].
  - apply (proj1 (proj2 (Decode_rejections key.VersionByteAccountID "2222"
                    (or_introl eq_refl))) [x03; x07; x87]);
      [reflexivity|simpl; lia|discriminate].
  - apply (proj1 (proj2 (proj2 (Decode_rejections key.VersionByteSeed "2UeoR"
                    (or_intror eq_refl)))) [xff; x00; x00]);
      [reflexivity|discriminate].
  - apply (proj2 (proj2 (proj2 (Decode_rejections key.VersionByteAccountID "2HWGH"
                    (or_introl eq_refl)))) []).
    reflexivity.
Defined.

(** C6, as stated, fails: the encoding of the empty payload decodes
    successfully, to a payload of length 0. *)
Lemma Decode_accepts_empty_payload :
  key.Encode key.VersionByteAccountID [] = Ok "2HWGH" /\
  key.Decode key.VersionByteAccountID "2HWGH" = Ok [] /\
  List.length (@nil byte) <> 32.
Proof. repeat split; discriminate. Qed.

(** C6, amended.  Whenever [Decode] succeeds, the payload is the decoded
    bytes between the version byte and the two checksum bytes: its length is
    the decoded length minus 3, and it is 32 exactly when the string decodes
    to 35 bytes.  [Decode] itself checks no payload length. *)
Theorem Decode_payload_length (t : key.VersionByte) (s : string) (p : bytes) :
  key.Decode t s = Ok p ->
  exists raw,
    base58.FastBase58Decoding s = inr raw /\
    p = slice 1 (List.length raw - 2) raw /\
    List.length p = List.length raw - 3 /\
    (List.length p = 32 <-> List.length raw = 35).
Proof.
  intros Hd. destruct (Decode_ok_inv t s p Hd) as (raw & Hb & Hlen & _ & _ & Hp).
  exists raw. split; [exact Hb|]. split; [exact Hp|].
  assert (Hl : List.length p = List.length raw - 3).
  { rewrite Hp, slice_length; lia. }
  split; [exact Hl|]. lia.
Qed.

Lemma Decode_payload_length_witness :
  exists raw,
    base58.FastBase58Decoding "2HWGH" = inr raw /\
    [] = slice 1 (List.length raw - 2) raw /\
    List.length (@nil byte) = List.length raw - 3 /\
    (List.length (@nil byte) = 32 <-> List.length raw = 35).
Proof.
  apply (Decode_payload_length key.VersionByteAccountID "2HWGH" []).
  reflexivity.
Defined.

(** C7.  For every account, message and signature whose length is not the
    ed25519 signature size, [Verify] fails with [ErrInvalidSignature] and
    makes no call at all, so none to [ed25519.Verify]. *)
Theorem Verify_wrong_length_rejected {E : Ed25519}
    (a : account.Account) (input sig : bytes) :
  List.length sig <> ed25519_SignatureSize ->
  account.Verify a input sig = (Returned (Err ErrInvalidSignature), []) /\
  (forall pub message sg,
     ~ In (CallEd25519Verify pub message sg) (calls (account.Verify a input sig))).
Proof.
  intros Hlen.
  assert (Hv : account.Verify a input sig = (Returned (Err ErrInvalidSignature), [])).
  { destruct a as [kp|kp]; simpl;
      unfold account.FromAddress_Verify, account.Full_Verify;
      destruct (Nat.eqb_spec (List.length sig) ed25519_PrivateKeySize) as [Heq|_];
      try reflexivity; exfalso; apply Hlen; exact Heq. }
  split; [exact Hv|]. intros pub message sg. rewrite Hv. simpl. tauto.
Qed.

Lemma Verify_wrong_length_rejected_witness :
  @account.Verify Ed25519_sample
    (account.AccountFull {| account.seed := "not a seed" |}) [x01] [x02; x03] =
    (Returned (Err ErrInvalidSignature), []) /\
  (forall pub message sg,
     ~ In (CallEd25519Verify pub message sg)
         (calls (@account.Verify Ed25519_sample
            (account.AccountFull {| account.seed := "not a seed" |})
            [x01] [x02; x03]))).
Proof.
  apply (@Verify_wrong_length_rejected Ed25519_sample). discriminate.
Defined.

(** C9.  Word counts: each of 12, 15, 18, 21 and 24 is accepted and leads
    to the entropy size of the table; every other integer is refused with
    [ErrInvalidWordCount] before any call to the entropy or mnemonic
    routines. *)
Theorem FromWordCount_word_counts {B : Bip39} (count : Z) :
  (forall bits, In (count, bits) spec_word_counts ->
     exists wc, wallet.NewWordCount count = Ok wc /\
       wallet.EntropySize wc = bits /\
       wallet.FromWordCount count = wallet.FromEntropy bits) /\
  (~ In count (map fst spec_word_counts) ->
     wallet.NewWordCount count = Err ErrInvalidWordCount /\
     wallet.FromWordCount count = (Returned (Err ErrInvalidWordCount), [])).
Proof.
  split.
  - intros bits Hin. simpl in Hin.
    repeat (destruct Hin as [[= <- <-]|Hin];
            [eexists; repeat split; reflexivity|]).
    contradiction.
  - intros Hnot. simpl in Hnot.
    assert (Hn : wallet.NewWordCount count = Err ErrInvalidWordCount).
    { destruct count as [|q|q]; try reflexivity.
      do 5 (try (destruct q as [q|q|]; try reflexivity));
        exfalso; apply Hnot; tauto. }
    split; [exact Hn|]. unfold wallet.FromWordCount. rewrite Hn. reflexivity.
Qed.

Lemma FromWordCount_word_counts_witness :
  (exists wc, wallet.NewWordCount 12 = Ok wc /\
     wallet.EntropySize wc = 128%Z /\
     @wallet.FromWordCount Bip39_sample 12 = @wallet.FromEntropy Bip39_sample 128) /\
  (wallet.NewWordCount 13 = Err ErrInvalidWordCount /\
   @wallet.FromWordCount Bip39_sample 13 = (Returned (Err ErrInvalidWordCount), [])).
Proof.
  split.
  - apply (proj1 (@FromWordCount_word_counts Bip39_sample 12) 128%Z).
    simpl. tauto.
  - apply (proj2 (@FromWordCount_word_counts Bip39_sample 13)).
    simpl. intros [H|[H|[H|[H|[H|[]]]]]]; discriminate.
Defined.

(** C10.  A version byte that is neither [0xdd] nor [0xff] is refused up
    front with [ErrInvalidVersionByte], by [Decode] whatever the string and by
    [Encode] whatever the payload. *)
Theorem invalid_version_rejected (v : byte) (s : string) (p : bytes) :
  v <> key.VersionByteAccountID -> v <> key.VersionByteSeed ->
  key.checkValidVersionByte v = Err ErrInvalidVersionByte /\
  key.Decode v s = Err ErrInvalidVersionByte /\
  key.Encode v p = Err ErrInvalidVersionByte.
Proof.
  intros Ha Hs. unfold key.Decode, key.Encode.
  rewrite (checkValidVersionByte_err v Ha Hs). repeat split; reflexivity.
Qed.

Lemma invalid_version_rejected_witness :
  key.checkValidVersionByte x00 = Err ErrInvalidVersionByte /\
  key.Decode x00 "P3yn8Ff6wJHdWyQXAfRFT9muqEbz8WA2gsS1y48YKyQmCVRN" =
    Err ErrInvalidVersionByte /\
  key.Encode x00 (repeat x00 32) = Err ErrInvalidVersionByte.
Proof.
  apply (invalid_version_rejected x00); discriminate.
Defined.

(** * Further properties *)

(** ** More on base58 *)
Section Base58More.
Import base58.
Local Open Scope N_scope.

Lemma index_of_nth c l : forall i d,
  index_of c l i = Some d ->
  i <= d /\ (N.to_nat (d - i) < List.length l)%nat /\
  nth (N.to_nat (d - i)) l zero = c.
Proof.
  induction l as [|x l IH]; intros i d; simpl; [discriminate|].
  destruct (Ascii.eqb c x) eqn:E.
  - intros [= <-]. apply Ascii.eqb_eq in E. subst x.
    rewrite N.sub_diag. simpl. repeat split; lia.
  - intros Hd. destruct (IH _ _ Hd) as (Hle & Hlt & Hn).
    replace (N.to_nat (d - i)) with (S (N.to_nat (d - N.succ i))) by lia.
    repeat split; [lia|simpl; lia|exact Hn].
Qed.

Lemma encode_decode_digit c d :
  decode_digit c = Some d -> d < 58 /\ encode_digit d = c.
Proof.
  intros Hd. destruct (index_of_nth c alphabet 0 d Hd) as (_ & Hlt & Hn).
  rewrite N.sub_0_r in *. split; [|exact Hn].
  change (List.length alphabet) with 58%nat in Hlt. lia.
Qed.

Lemma decode_digits_inv cs : forall ds,
  decode_digits cs = inr ds ->
  Forall (fun d => d < 58) ds /\ map encode_digit ds = cs.
Proof.
  induction cs as [|c cs IH]; intros ds; simpl.
  - intros [= <-]. split; [constructor|reflexivity].
  - destruct (decode_digit c) as [d|] eqn:Hc; [|discriminate].
    destruct (decode_digits cs) as [e|ds'] eqn:Hcs; [discriminate|].
    intros [= <-]. destruct (IH ds' eq_refl) as [Hall Hmap].
    destruct (encode_decode_digit c d Hc) as [Hlt Henc].
    split; [constructor; assumption|]. simpl. congruence.
Qed.

Lemma decode_digits_invalid cs c :
  In c cs -> decode_digit c = None -> exists e, decode_digits cs = inl e.
Proof.
  induction cs as [|x cs IH]; intros Hin Hc; [contradiction|].
  simpl. destruct (decode_digit x) as [d|] eqn:Hx; [|eauto].
  destruct Hin as [->|Hin]; [congruence|].
  destruct (IH Hin Hc) as [e ->]. eauto.
Qed.

Lemma leading_zeros_split ds :
  ds = (repeat 0 (Radix.leading_zeros ds) ++ skipn (Radix.leading_zeros ds) ds)%list /\
  hd_error (skipn (Radix.leading_zeros ds) ds) <> Some 0.
Proof.
  induction ds as [|d ds [IH1 IH2]]; [split; [reflexivity|discriminate]|].
  simpl. destruct (N.eqb_spec d 0) as [->|Hd].
  - simpl. split; [f_equal; exact IH1|exact IH2].
  - simpl. split; [reflexivity|]. intros [= ->]. contradiction.
Qed.

Lemma to_N_byte_of_N d : d < 256 -> Byte.to_N (byte_of_N d) = d.
Proof.
  intros Hd. unfold byte_of_N. rewrite N.mod_small by exact Hd.
  destruct (Byte.of_N d) as [b|] eqn:E.
  - apply Byte.to_of_N. exact E.
  - exfalso. pose proof (Byte.to_of_N_option_map d) as Hm. rewrite E in Hm.
    simpl in Hm. destruct (N.leb_spec d 255); [discriminate|lia].
Qed.

Lemma map_to_N_byte_of_N ds :
  Forall (fun d => d < 256) ds -> map Byte.to_N (map byte_of_N ds) = ds.
Proof.
  induction 1 as [|d ds Hd _ IH]; [reflexivity|].
  simpl. rewrite to_N_byte_of_N by exact Hd. f_equal. exact IH.
Qed.

Lemma zcount_repeat z bs :
  hd_error (map Byte.to_N bs) <> Some 0 ->
  zcount (repeat x00 z ++ bs)%list = z.
Proof.
  intros Hh. induction z as [|z IH]; simpl.
  - destruct bs as [|b bs]; [reflexivity|]. simpl.
    destruct (Byte.eqb b x00) eqn:E; [|reflexivity].
    apply Byte.byte_dec_bl in E. subst b. exfalso. apply Hh. reflexivity.
  - rewrite IH. reflexivity.
Qed.

Lemma skipn_repeat_app {A : Type} (x : A) z (l : list A) :
  skipn z (repeat x z ++ l)%list = l.
Proof. induction z as [|z IH]; [reflexivity|exact IH]. Qed.

(** Encoding undoes decoding: a string has at most one decoding, and it is
    the only string with that decoding. *)
Lemma FastBase58_decode_encode s raw :
  FastBase58Decoding s = inr raw -> FastBase58Encoding raw = s.
Proof.
  unfold FastBase58Decoding. intros Hd.
  assert (Hd' : match decode_digits (list_ascii_of_string s) with
                | inl e => inl e
                | inr ds => inr (repeat x00 (Radix.leading_zeros ds) ++
                     map byte_of_N (Radix.to_digits 256 (Radix.from_digits 58 ds)))%list
                end = inr raw).
  { destruct s; [discriminate|exact Hd]. }
  clear Hd.
  destruct (decode_digits (list_ascii_of_string s)) as [e|ds] eqn:Hds; [discriminate|].
  injection Hd' as <-.
  destruct (decode_digits_inv _ _ Hds) as [Hall Hmap].
  destruct (leading_zeros_split ds) as [Hsplit Hhd].
  set (z := Radix.leading_zeros ds) in *.
  set (rest := skipn z ds) in *.
  assert (Hrest : Forall (fun d => d < 58) rest).
  { rewrite Hsplit in Hall. apply Forall_app in Hall. tauto. }
  set (n := Radix.from_digits 58 ds).
  assert (Hn : n = Radix.from_digits 58 rest).
  { subst n. rewrite Hsplit at 1. apply from_digits_leading_zeros. }
  set (bs := Radix.to_digits 256 n).
  assert (Hbs : Forall (fun d => d < 256) bs) by (apply to_digits_bounded; lia).
  assert (Hbh : hd_error bs <> Some 0) by (apply to_digits_head; lia).
  unfold FastBase58Encoding.
  rewrite zcount_repeat by (rewrite map_to_N_byte_of_N; assumption).
  rewrite skipn_repeat_app, map_to_N_byte_of_N by exact Hbs.
  subst bs. rewrite from_to_digits by lia.
  rewrite Hn, to_from_digits by (try lia; assumption).
  rewrite <- (string_of_list_ascii_of_string s), <- Hmap. f_equal.
  transitivity (map encode_digit (repeat 0 z ++ rest)).
  - rewrite map_app. f_equal.
    clear. induction z as [|z IH]; [reflexivity|]. simpl. f_equal. exact IH.
  - f_equal. symmetry. exact Hsplit.
Qed.

End Base58More.

Section LeadingDigit.
Import Radix.
Local Open Scope N_scope.
Variable base : N.
Hypothesis base_gt1 : 1 < base.

(** A number between [d * base^k] and [(d+1) * base^k] has [k + 1] digits,
    the first of which is [d]. *)
Lemma to_digits_leading k : forall n d,
  0 < d -> d < base ->
  d * base ^ N.of_nat k <= n -> n < (d + 1) * base ^ N.of_nat k ->
  exists tl, to_digits base n = d :: tl /\ List.length tl = k.
Proof.
  induction k as [|k IH]; intros n d Hd0 Hdb Hlo Hhi.
  - simpl in Hlo, Hhi. assert (n = d) as -> by lia.
    exists []. split; [|reflexivity].
    rewrite (to_digits_step base base_gt1 d) by lia.
    rewrite N.div_small, N.mod_small by lia. reflexivity.
  - rewrite Nat2N.inj_succ, N.pow_succ_r' in Hlo, Hhi.
    assert (Hn : n <> 0) by nia.
    destruct (IH (n / base) d Hd0 Hdb) as (tl & Htl & Hlen).
    + apply N.div_le_lower_bound; [lia|]. lia.
    + apply N.Div0.div_lt_upper_bound. lia.
    + exists (tl ++ [n mod base])%list. split.
      * rewrite (to_digits_step base base_gt1 n Hn), Htl. reflexivity.
      * rewrite length_app. simpl. lia.
Qed.

Lemma from_digits_fold_bounds ds : forall a,
  Forall (fun d => d < base) ds ->
  a * base ^ N.of_nat (List.length ds)
    <= fold_left (fun acc d => acc * base + d) ds a
  /\ fold_left (fun acc d => acc * base + d) ds a
    < (a + 1) * base ^ N.of_nat (List.length ds).
Proof.
  induction ds as [|d ds IH]; intros a Hall.
  - simpl. lia.
  - inversion_clear Hall as [|? ? Hd Hds].
    cbn [fold_left List.length]. rewrite Nat2N.inj_succ, N.pow_succ_r'.
    destruct (IH (a * base + d) Hds) as [Hlo Hhi]. split.
    + etransitivity; [|exact Hlo].
      rewrite N.mul_assoc. apply N.mul_le_mono_r. lia.
    + eapply N.lt_le_trans; [exact Hhi|].
      rewrite N.mul_assoc. apply N.mul_le_mono_r. lia.
Qed.

End LeadingDigit.

(** ** The key codec, continued *)

Lemma Encode_ok_valid t p s : key.Encode t p = Ok s -> valid_version t.
Proof.
  unfold key.Encode. intros He. apply checkValidVersionByte_ok_inv.
  destruct (key.checkValidVersionByte t) as [[]|e]; [reflexivity|discriminate].
Qed.

Lemma string_of_list_ascii_length l :
  String.length (string_of_list_ascii l) = List.length l.
Proof. induction l as [|c l IH]; [reflexivity|]. simpl. f_equal. exact IH. Qed.

(** The first character and the length of an encoded 35-byte key whose
    version byte is [t], when the numbers between [t * 256^34] and
    [(t+1) * 256^34] all have 48 base-58 digits starting with [d]. *)
Lemma Encode_first_char (t : byte) (d : N) (p : bytes) :
  (0 < d)%N -> (d < 58)%N -> (0 < Byte.to_N t)%N ->
  (d * 58 ^ 47 <= Byte.to_N t * 256 ^ 34)%N ->
  ((Byte.to_N t + 1) * 256 ^ 34 <= (d + 1) * 58 ^ 47)%N ->
  valid_version t -> List.length p = 32 ->
  exists rest,
    key.Encode t p = Ok (String (base58.encode_digit d) rest) /\
    String.length rest = 47.
Proof.
  intros Hd0 Hd58 Ht0 Hlo Hhi Ht Hlen.
  unfold key.Encode. rewrite (checkValidVersionByte_ok t Ht).
  cbn [Result_bind]. unfold base58.FastBase58Encoding.
  set (cs := crc16.Checksum ([t] ++ p)%list).
  change (([t] ++ p) ++ cs)%list with (t :: (p ++ cs))%list.
  assert (Hz : base58.zcount (t :: (p ++ cs)) = 0).
  { simpl. destruct (Byte.eqb t x00) eqn:E; [|reflexivity].
    apply Byte.byte_dec_bl in E. subst t. simpl in Ht0. lia. }
  rewrite Hz. cbn [skipn repeat app map].
  set (tail := map Byte.to_N (p ++ cs)).
  assert (Htail : List.length tail = 34).
  { subst tail cs. rewrite length_map, length_app, Checksum_length. lia. }
  pose proof (from_digits_fold_bounds 256 ltac:(lia) tail (Byte.to_N t)
                (to_N_bounded_all (p ++ cs))) as [Hnlo Hnhi].
  rewrite Htail in Hnlo, Hnhi. change (N.of_nat 34) with 34%N in Hnlo, Hnhi.
  change (Radix.from_digits 256 (Byte.to_N t :: tail))
    with (fold_left (fun acc d => acc * 256 + d)%N tail (Byte.to_N t)).
  set (n := fold_left (fun acc d => acc * 256 + d)%N tail (Byte.to_N t)) in *.
  destruct (to_digits_leading 58 ltac:(lia) 47 n d Hd0 Hd58) as (tl & Htl & Hl).
  - change (N.of_nat 47) with 47%N. lia.
  - change (N.of_nat 47) with 47%N. lia.
  - rewrite Htl. cbn [map string_of_list_ascii].
    eexists. split; [reflexivity|].
    rewrite string_of_list_ascii_length, length_map. exact Hl.
Qed.

(** X1.  [Version] agrees with [Decode]: whenever [Decode] accepts a string
    under a tag, [Version] returns that tag for it; so [Version] of an
    encoded key is the tag it was encoded under. *)
Theorem Version_agrees_with_Decode (t : key.VersionByte) (s : string) (p : bytes) :
  key.Decode t s = Ok p \/ key.Encode t p = Ok s ->
  key.Version s = Ok t.
Proof.
  intros Hds.
  assert (Hd : exists p', key.Decode t s = Ok p').
  { destruct Hds as [Hd|He]; [eauto|].
    destruct (Encode_Decode t p (Encode_ok_valid t p s He)) as (s' & He' & _ & Hd).
    exists p. congruence. }
  destruct Hd as [p' Hd].
  destruct (Decode_ok_inv t s p' Hd) as (raw & Hb & Hlen & Hv & _).
  unfold key.Version, key.decodeString. rewrite Hb.
  destruct (Nat.ltb_spec (List.length raw) 3); [lia|].
  simpl. rewrite Hv. reflexivity.
Qed.

Lemma Version_agrees_with_Decode_witness :
  key.Version "2HWGH" = Ok key.VersionByteAccountID.
Proof.
  apply (Version_agrees_with_Decode key.VersionByteAccountID "2HWGH" []).
  left. reflexivity.
Defined.

(** X2.  A key encoded under one version tag is refused under the other one
    with [ErrInvalidVersionByte], whatever the payload. *)
Theorem Decode_other_version_rejected
    (t t' : key.VersionByte) (p : bytes) (s : string) :
  key.Encode t p = Ok s ->
  t' = key.VersionByteAccountID \/ t' = key.VersionByteSeed ->
  t' <> t ->
  key.Decode t' s = Err ErrInvalidVersionByte.
Proof.
  intros He Ht' Hne.
  apply (Encode_Decode_other t t' p s); auto.
  exact (Encode_ok_valid t p s He).
Qed.

Lemma Decode_other_version_rejected_witness :
  key.Decode key.VersionByteSeed "2HWGH" = Err ErrInvalidVersionByte.
Proof.
  apply (Decode_other_version_rejected key.VersionByteAccountID
           key.VersionByteSeed [] "2HWGH").
  - reflexivity.
  - right. reflexivity.
  - discriminate.
Defined.

(** X3.  Key strings are canonical: a string that [Decode] accepts is
    exactly the string [Encode] produces for the decoded payload, so no two
    strings decode to the same key. *)
Theorem Decode_then_Encode (t : key.VersionByte) (s : string) (p : bytes) :
  key.Decode t s = Ok p -> key.Encode t p = Ok s.
Proof.
  intros Hd. pose proof (Decode_ok_valid t s p Hd) as Ht.
  destruct (Decode_ok_inv t s p Hd) as (raw & Hb & Hlen & Hv & Hcs & Hp).
  unfold key.Encode. rewrite (checkValidVersionByte_ok t Ht). cbn [Result_bind].
  f_equal. rewrite <- (FastBase58_decode_encode s raw Hb). f_equal.
  assert (Hvp : slice 0 (List.length raw - 2) raw = ([t] ++ p)%list).
  { rewrite Hp. unfold slice. rewrite Nat.sub_0_r. cbn [skipn].
    destruct raw as [|b raw']; [simpl in Hlen; lia|].
    simpl in Hv. subst b.
    replace (List.length (t :: raw') - 2) with (S (List.length raw' - 2))
      by (simpl; simpl in Hlen; lia).
    cbn [firstn skipn app]. f_equal. f_equal. simpl. lia. }
  rewrite Hvp in Hcs. rewrite <- Hcs, <- Hvp. unfold slice.
  rewrite Nat.sub_0_r. apply firstn_skipn.
Qed.

Lemma Decode_then_Encode_witness :
  key.Encode key.VersionByteAccountID [] = Ok "2HWGH".
Proof.
  apply (Decode_then_Encode key.VersionByteAccountID "2HWGH" []). reflexivity.
Defined.

(** X4.  [Encode] is injective: one string is the encoding of at most one
    version tag and payload. *)
Theorem Encode_injective (t t' : key.VersionByte) (p p' : bytes) (s : string) :
  key.Encode t p = Ok s -> key.Encode t' p' = Ok s -> t = t' /\ p = p'.
Proof.
  intros He He'.
  destruct (Encode_Decode t p (Encode_ok_valid t p s He)) as (s1 & He1 & Hb1 & _).
  destruct (Encode_Decode t' p' (Encode_ok_valid t' p' s He')) as (s2 & He2 & Hb2 & _).
  assert (s1 = s) as -> by congruence. assert (s2 = s) as -> by congruence.
  rewrite Hb1 in Hb2. injection Hb2 as Ht Hrest. subst t'.
  split; [reflexivity|].
  assert (Hlen : List.length p = List.length p').
  { apply (f_equal (@List.length byte)) in Hrest.
    rewrite !length_app, !Checksum_length in Hrest. lia. }
  apply (f_equal (firstn (List.length p))) in Hrest.
  rewrite firstn_app, Nat.sub_diag, firstn_all in Hrest.
  rewrite Hlen, firstn_app, Nat.sub_diag, firstn_all in Hrest.
  simpl in Hrest. rewrite !app_nil_r in Hrest. exact Hrest.
Qed.

Lemma Encode_injective_witness :
  key.VersionByteAccountID = key.VersionByteAccountID /\ @nil byte = [].
Proof.
  apply (Encode_injective key.VersionByteAccountID key.VersionByteAccountID
           [] [] "2HWGH"); reflexivity.
Defined.

(** X5.  As the comments on the version bytes say, an encoded 32-byte
    address starts with 'P' and an encoded 32-byte seed with 'S'; both are
    48 characters long. *)
Theorem Encode_first_character (p : bytes) :
  List.length p = 32 ->
  (exists rest, key.Encode key.VersionByteAccountID p = Ok (String "P" rest) /\
     String.length rest = 47) /\
  (exists rest, key.Encode key.VersionByteSeed p = Ok (String "S" rest) /\
     String.length rest = 47).
Proof.
  intros Hlen. split.
  - apply (Encode_first_char key.VersionByteAccountID 22 p);
      try (left; reflexivity); try exact Hlen;
      try reflexivity; vm_compute; discriminate.
  - apply (Encode_first_char key.VersionByteSeed 25 p);
      try (right; reflexivity); try exact Hlen;
      try reflexivity; vm_compute; discriminate.
Qed.

Lemma Encode_first_character_witness :
  (exists rest, key.Encode key.VersionByteAccountID (repeat xff 32) =
     Ok (String "P" rest) /\ String.length rest = 47) /\
  (exists rest, key.Encode key.VersionByteSeed (repeat xff 32) =
     Ok (String "S" rest) /\ String.length rest = 47).
Proof.
  apply (Encode_first_character (repeat xff 32)). reflexivity.
Defined.

(** X6.  A string that is empty or holds a character outside the base58
    alphabet is refused by [Decode] with the base58 error, under both tags;
    [Parse] returns that error after its first decoding attempt, and
    [MustParse] panics with it. *)
Theorem Decode_rejects_foreign_characters (t : key.VersionByte) (s : string) :
  t = key.VersionByteAccountID \/ t = key.VersionByteSeed ->
  s = "" \/
    (exists c, In c (list_ascii_of_string s) /\ base58.decode_digit c = None) ->
  exists cause,
    key.Decode t s = Err (ErrBase58DecodeFailed cause) /\
    account.Parse s =
      (Returned (Err (ErrBase58DecodeFailed cause)),
       [CallKeyDecode key.VersionByteAccountID s]) /\
    outcome (account.MustParse s) = Panicked (ErrBase58DecodeFailed cause).
Proof.
  intros Ht Hs.
  assert (Hb : exists cause, base58.FastBase58Decoding s = inl cause).
  { destruct Hs as [->|(c & Hin & Hc)]; [eexists; reflexivity|].
    unfold base58.FastBase58Decoding.
    destruct (decode_digits_invalid _ c Hin Hc) as [e He].
    destruct s; [contradiction|]. rewrite He. eauto. }
  destruct Hb as [cause Hb]. exists cause.
  assert (Hd : forall t', valid_version t' ->
            key.Decode t' s = Err (ErrBase58DecodeFailed cause)).
  { intros t' Ht'. rewrite (Decode_unfold t' s Ht'), Hb. reflexivity. }
  split; [apply Hd; exact Ht|].
  assert (Hp : account.Parse s =
               (Returned (Err (ErrBase58DecodeFailed cause)),
                [CallKeyDecode key.VersionByteAccountID s])).
  { rewrite Parse_unfold, (Hd key.VersionByteAccountID (or_introl eq_refl)).
    reflexivity. }
  split; [exact Hp|]. unfold account.MustParse. rewrite Hp. reflexivity.
Qed.

Lemma Decode_rejects_foreign_characters_witness :
  exists cause,
    key.Decode key.VersionByteSeed "S0S" = Err (ErrBase58DecodeFailed cause) /\
    account.Parse "S0S" =
      (Returned (Err (ErrBase58DecodeFailed cause)),
       [CallKeyDecode key.VersionByteAccountID "S0S"]) /\
    outcome (account.MustParse "S0S") = Panicked (ErrBase58DecodeFailed cause).
Proof.
  apply (Decode_rejects_foreign_characters key.VersionByteSeed "S0S").
  - right. reflexivity.
  - right. exists "0"%char. split; [simpl; tauto|reflexivity].
Defined.

(** X18.  The panicking variants.  Under the two version tags [MustEncode]
    never panics, [MustDecode] of its result returns the payload, and
    [MustDecode] under the other tag panics with [ErrInvalidVersionByte]. *)
Theorem MustEncode_MustDecode (t t' : key.VersionByte) (p : bytes) :
  t = key.VersionByteAccountID \/ t = key.VersionByteSeed ->
  t' = key.VersionByteAccountID \/ t' = key.VersionByteSeed ->
  t' <> t ->
  exists s,
    key.MustEncode t p = Returned s /\
    key.MustDecode t s = Returned p /\
    key.MustDecode t' s = Panicked ErrInvalidVersionByte.
Proof.
  intros Ht Ht' Hne.
  destruct (Encode_Decode t p Ht) as (s & He & _ & Hd).
  exists s. unfold key.MustEncode, key.MustDecode.
  rewrite He, Hd, (Encode_Decode_other t t' p s Ht Ht' (not_eq_sym Hne) He).
  repeat split.
Qed.

Lemma MustEncode_MustDecode_witness :
  exists s,
    key.MustEncode key.VersionByteSeed [x01; x02] = Returned s /\
    key.MustDecode key.VersionByteSeed s = Returned [x01; x02] /\
    key.MustDecode key.VersionByteAccountID s = Panicked ErrInvalidVersionByte.
Proof.
  apply (MustEncode_MustDecode key.VersionByteSeed key.VersionByteAccountID
           [x01; x02]).
  - right. reflexivity.
  - left. reflexivity.
  - discriminate.
Defined.

(** ** Accounts *)

Section AccountFacts.
Import account.
Context {E : Ed25519}.

Lemma copy_array_length n (src : bytes) : List.length (copy_array n src) = n.
Proof.
  unfold copy_array. rewrite length_firstn, length_app, repeat_length. lia.
Qed.

Lemma call_MustDecode_ok t s p :
  key.Decode t s = Ok p ->
  call_MustDecode t s = (Returned p, [CallKeyDecode t s]).
Proof. intros Hd. unfold call_MustDecode, call, key.MustDecode. rewrite Hd. reflexivity. Qed.

Lemma call_MustDecode_err t s e :
  key.Decode t s = Err e ->
  call_MustDecode t s = (Panicked e, [CallKeyDecode t s]).
Proof. intros Hd. unfold call_MustDecode, call, key.MustDecode. rewrite Hd. reflexivity. Qed.

Lemma FromAddress_publicKey_ok kp p :
  key.Decode key.VersionByteAccountID (address kp) = Ok p ->
  FromAddress_publicKey kp =
    (Returned (copy_array 32 p), [CallKeyDecode key.VersionByteAccountID (address kp)]).
Proof.
  intros Hd. unfold FromAddress_publicKey.
  rewrite (call_MustDecode_ok _ _ _ Hd). reflexivity.
Qed.

Lemma FromAddress_publicKey_err kp e :
  key.Decode key.VersionByteAccountID (address kp) = Err e ->
  FromAddress_publicKey kp =
    (Panicked e, [CallKeyDecode key.VersionByteAccountID (address kp)]).
Proof.
  intros Hd. unfold FromAddress_publicKey.
  rewrite (call_MustDecode_err _ _ _ Hd). reflexivity.
Qed.

Lemma FromRawSeed_ok raw :
  exists s, key.Encode key.VersionByteSeed raw = Ok s /\
    FromRawSeed raw = Ok {| seed := s |} /\
    key.Decode key.VersionByteSeed s = Ok raw /\
    key.Decode key.VersionByteAccountID s = Err ErrInvalidVersionByte.
Proof.
  destruct (Encode_Decode key.VersionByteSeed raw (or_intror eq_refl))
    as (s & He & _ & Hd).
  exists s. unfold FromRawSeed. rewrite He. repeat split; try assumption.
  apply (Encode_Decode_other key.VersionByteSeed key.VersionByteAccountID raw s);
    [right; reflexivity|left; reflexivity|discriminate|exact He].
Qed.

(** The keys of a full account whose seed string decodes to fewer than 32
    bytes: [ed25519.GenerateKey] cannot read a seed, and [keys] panics. *)
Lemma Full_keys_short_seed kp raw :
  key.Decode key.VersionByteSeed (seed kp) = Ok raw ->
  List.length raw < 32 ->
  Full_keys kp =
    (Panicked (if (List.length raw =? 0)%nat then ErrEOF else ErrUnexpectedEOF),
     [CallKeyDecode key.VersionByteSeed (seed kp); CallEd25519GenerateKey raw]).
Proof.
  intros Hd Hlen. unfold Full_keys, Full_rawSeed.
  rewrite (call_MustDecode_ok _ _ _ Hd).
  unfold bind, call, panic, ed25519_GenerateKey.
  destruct (Nat.eqb_spec (List.length raw) 0); [reflexivity|].
  destruct (Nat.ltb_spec (List.length raw) ed25519_SeedSize) as [|Hge];
    [reflexivity|].
  change ed25519_SeedSize with 32 in Hge. lia.
Qed.

End AccountFacts.



(** X8.  [FromRawSeed] never fails, and the account it builds gives the raw
    seed back: [rawSeed] returns it without a panic, [Seed] returns a string
    that [Parse] and [MustParse] read as the same full account, and [Random]
    returns that account when the entropy read delivers these bytes (it
    panics only when the read fails). *)
Theorem FromRawSeed_round_trip (rawSeed : bytes) :
  List.length rawSeed = 32 ->
  exists kp,
    account.FromRawSeed rawSeed = Ok kp /\
    outcome (account.Full_rawSeed kp) = Returned rawSeed /\
    account.Full_Seed kp = Ok (account.seed kp) /\
    outcome (account.Parse (account.seed kp)) =
      Returned (Ok (account.AccountFull kp)) /\
    outcome (account.MustParse (account.seed kp)) =
      Returned (account.AccountFull kp) /\
    account.Random (Ok rawSeed) = Returned kp /\
    (forall err, account.Random (Err err) = Panicked err).
Proof.
  intros _. destruct (FromRawSeed_ok rawSeed) as (s & He & Hf & Hd & Ha).
  exists {| account.seed := s |}. split; [exact Hf|]. split.
  { unfold account.Full_rawSeed. cbn [account.seed].
    rewrite (call_MustDecode_ok _ _ _ Hd). reflexivity. }
  split; [reflexivity|].
  assert (Hp : account.Parse s =
               (Returned (Ok (account.AccountFull {| account.seed := s |})),
                [CallKeyDecode key.VersionByteAccountID s;
                 CallKeyDecode key.VersionByteSeed s])).
  { rewrite Parse_unfold, Ha, Hd. reflexivity. }
  cbn [account.seed]. split; [rewrite Hp; reflexivity|].
  split; [unfold account.MustParse; rewrite Hp; reflexivity|].
  split; [|reflexivity]. unfold account.Random. rewrite Hf. reflexivity.
Qed.

Lemma FromRawSeed_round_trip_witness :
  exists kp,
    account.FromRawSeed (repeat x01 32) = Ok kp /\
    outcome (account.Full_rawSeed kp) = Returned (repeat x01 32) /\
    account.Full_Seed kp = Ok (account.seed kp) /\
    outcome (account.Parse (account.seed kp)) =
      Returned (Ok (account.AccountFull kp)) /\
    outcome (account.MustParse (account.seed kp)) =
      Returned (account.AccountFull kp) /\
    account.Random (Ok (repeat x01 32)) = Returned kp /\
    (forall err, account.Random (Err err) = Panicked err).
Proof.
  apply (FromRawSeed_round_trip (repeat x01 32)). reflexivity.
Defined.

(** X9.  The public key of an address-only account.  When the address
    decodes, [publicKey] returns exactly 32 bytes, the payload cut or padded
    with zeros (the payload itself when it has 32 bytes), and [Hint] returns
    its last four bytes; neither panics.  When the address does not decode,
    [publicKey], [Hint] and [Verify] on a 64-byte signature panic with the
    decoding error. *)
Theorem FromAddress_publicKey_spec {E : Ed25519} (kp : account.FromAddress) :
  (forall p, key.Decode key.VersionByteAccountID (account.address kp) = Ok p ->
     outcome (account.FromAddress_publicKey kp) =
       Returned (account.copy_array 32 p) /\
     List.length (account.copy_array 32 p) = 32 /\
     (List.length p = 32 -> account.copy_array 32 p = p) /\
     outcome (account.FromAddress_Hint kp) =
       Returned (skipn 28 (account.copy_array 32 p)) /\
     List.length (skipn 28 (account.copy_array 32 p)) = 4) /\
  (forall e, key.Decode key.VersionByteAccountID (account.address kp) = Err e ->
     outcome (account.FromAddress_publicKey kp) = Panicked e /\
     outcome (account.FromAddress_Hint kp) = Panicked e /\
     forall input sig, List.length sig = 64 ->
       outcome (account.FromAddress_Verify kp input sig) = Panicked e).
Proof.
  split.
  - intros p Hd.
    pose proof (copy_array_length 32 p) as Hlen.
    assert (Hlen4 : List.length (skipn 28 (account.copy_array 32 p)) = 4).
    { rewrite length_skipn, Hlen. reflexivity. }
    split; [rewrite (FromAddress_publicKey_ok kp p Hd); reflexivity|].
    split; [exact Hlen|]. split; [apply copy_array_exact|].
    split; [|exact Hlen4].
    unfold account.FromAddress_Hint.
    rewrite (FromAddress_publicKey_ok kp p Hd).
    unfold bind, account.slice_from, ret, panic, outcome.
    rewrite Hlen. cbn [Nat.ltb Nat.leb fst].
    f_equal. apply copy_array_exact. exact Hlen4.
  - intros e Hd. split; [rewrite (FromAddress_publicKey_err kp e Hd); reflexivity|].
    split.
    + unfold account.FromAddress_Hint.
      rewrite (FromAddress_publicKey_err kp e Hd). reflexivity.
    + intros input sig Hsig. unfold account.FromAddress_Verify.
      rewrite Hsig, (FromAddress_publicKey_err kp e Hd). reflexivity.
Qed.

Lemma FromAddress_publicKey_spec_witness :
  (outcome (account.FromAddress_publicKey {| account.address := "2HWGH" |}) =
     Returned (account.copy_array 32 []) /\
   List.length (account.copy_array 32 []) = 32 /\
   (List.length (@nil byte) = 32 -> account.copy_array 32 [] = []) /\
   outcome (account.FromAddress_Hint {| account.address := "2HWGH" |}) =
     Returned (skipn 28 (account.copy_array 32 [])) /\
   List.length (skipn 28 (account.copy_array 32 [])) = 4) /\
  (outcome (account.FromAddress_publicKey {| account.address := "2" |}) =
     Panicked (ErrEncodedTooShort 1) /\
   outcome (account.FromAddress_Hint {| account.address := "2" |}) =
     Panicked (ErrEncodedTooShort 1) /\
   forall input sig, List.length sig = 64 ->
     outcome (@account.FromAddress_Verify Ed25519_sample
                {| account.address := "2" |} input sig) =
       Panicked (ErrEncodedTooShort 1)).
Proof.
  split.
  - apply (proj1 (@FromAddress_publicKey_spec Ed25519_sample
                    {| account.address := "2HWGH" |}) []).
    reflexivity.
  - apply (proj2 (@FromAddress_publicKey_spec Ed25519_sample
                    {| account.address := "2" |}) (ErrEncodedTooShort 1)).
    reflexivity.
Defined.

(** X10.  A seed string whose payload has fewer than 32 bytes is accepted
    by [Parse] as a full account, but the account has no keys: [Sign],
    [Address] and [Verify] on a 64-byte signature panic with the error of
    [ed25519.GenerateKey]'s read ([io.EOF] on the empty payload,
    [io.ErrUnexpectedEOF] otherwise). *)
Theorem short_seed_account_panics {E : Ed25519} (p : bytes) :
  List.length p < 32 ->
  exists s,
    key.Encode key.VersionByteSeed p = Ok s /\
    outcome (account.Parse s) =
      Returned (Ok (account.AccountFull {| account.seed := s |})) /\
    let e := if (List.length p =? 0)%nat then ErrEOF else ErrUnexpectedEOF in
    (forall input,
       outcome (account.Full_Sign {| account.seed := s |} input) = Panicked e) /\
    outcome (account.Full_Address {| account.seed := s |}) = Panicked e /\
    (forall input sig, List.length sig = 64 ->
       outcome (account.Full_Verify {| account.seed := s |} input sig) = Panicked e).
Proof.
  intros Hlen. destruct (FromRawSeed_ok p) as (s & He & _ & Hd & Ha).
  exists s. split; [exact He|]. split.
  { rewrite Parse_unfold, Ha, Hd. reflexivity. }
  pose proof (Full_keys_short_seed {| account.seed := s |} p Hd Hlen) as Hk.
  cbv zeta. repeat split.
  - intros input. unfold account.Full_Sign. rewrite Hk. reflexivity.
  - unfold account.Full_Address, account.Full_publicKey. rewrite Hk. reflexivity.
  - intros input sig Hsig. unfold account.Full_Verify, account.Full_publicKey.
    rewrite Hsig, Hk. reflexivity.
Qed.

Lemma short_seed_account_panics_witness :
  exists s,
    key.Encode key.VersionByteSeed [x01] = Ok s /\
    outcome (account.Parse s) =
      Returned (Ok (account.AccountFull {| account.seed := s |})) /\
    let e := if (List.length [x01] =? 0)%nat then ErrEOF else ErrUnexpectedEOF in
    (forall input,
       outcome (@account.Full_Sign Ed25519_sample {| account.seed := s |} input) =
         Panicked e) /\
    outcome (@account.Full_Address Ed25519_sample {| account.seed := s |}) =
      Panicked e /\
    (forall input sig, List.length sig = 64 ->
       outcome (@account.Full_Verify Ed25519_sample {| account.seed := s |}
                  input sig) = Panicked e).
Proof.
  apply (@short_seed_account_panics Ed25519_sample [x01]). simpl. lia.
Defined.

Section AddressOfFull.
Import account.
Context {E : Ed25519}.

Lemma Full_publicKey_of_valid_seed kp raw :
  key.Decode key.VersionByteSeed (seed kp) = Ok raw ->
  List.length raw = ed25519_SeedSize ->
  Full_publicKey kp =
    (Returned (slice 32 64 (ed25519_NewKeyFromSeed raw)),
     [CallKeyDecode key.VersionByteSeed (seed kp); CallEd25519GenerateKey raw]).
Proof.
  intros Hd Hlen. unfold Full_publicKey.
  rewrite (Full_keys_of_valid_seed kp raw Hd Hlen). reflexivity.
Qed.

(** The address of a full account, and the address-only account it names. *)
Lemma Full_Address_of_valid_seed kp raw :
  key.Decode key.VersionByteSeed (seed kp) = Ok raw ->
  List.length raw = ed25519_SeedSize ->
  List.length (ed25519_NewKeyFromSeed raw) = ed25519_PrivateKeySize ->
  let pub := slice 32 64 (ed25519_NewKeyFromSeed raw) in
  exists addr,
    key.Encode key.VersionByteAccountID pub = Ok addr /\
    outcome (Full_Address kp) = Returned addr /\
    key.Decode key.VersionByteAccountID addr = Ok pub /\
    outcome (FromAddress_publicKey {| address := addr |}) = Returned pub /\
    outcome (Full_Hint kp) = Returned (skipn 28 pub) /\
    outcome (FromAddress_Hint {| address := addr |}) = Returned (skipn 28 pub) /\
    forall input sig,
      outcome (FromAddress_Verify {| address := addr |} input sig) =
      outcome (Full_Verify kp input sig).
Proof.
  intros Hd Hlen Hsz pub.
  assert (Hpub : List.length pub = 32).
  { subst pub. apply slice_length. rewrite Hsz. reflexivity. }
  destruct (Encode_Decode key.VersionByteAccountID pub (or_introl eq_refl))
    as (addr & He & _ & Hda).
  exists addr. split; [exact He|]. split.
  { unfold Full_Address. rewrite (Full_publicKey_of_valid_seed kp raw Hd Hlen).
    unfold bind, outcome, key.MustEncode. fold pub. rewrite He. reflexivity. }
  split; [exact Hda|].
  assert (Hpk : FromAddress_publicKey {| address := addr |} =
                (Returned pub, [CallKeyDecode key.VersionByteAccountID addr])).
  { rewrite (FromAddress_publicKey_ok {| address := addr |} pub Hda).
    rewrite (copy_array_exact 32 pub Hpub). reflexivity. }
  split; [rewrite Hpk; reflexivity|].
  assert (Hh : List.length (skipn 28 pub) = 4).
  { rewrite length_skipn, Hpub. reflexivity. }
  split.
  { unfold Full_Hint. rewrite (Full_publicKey_of_valid_seed kp raw Hd Hlen).
    fold pub. unfold bind, slice_from, ret, outcome. rewrite Hpub.
    cbn [Nat.ltb Nat.leb fst]. rewrite (copy_array_exact 4 _ Hh). reflexivity. }
  split.
  { unfold FromAddress_Hint. rewrite Hpk.
    unfold bind, slice_from, ret, outcome. rewrite Hpub.
    cbn [Nat.ltb Nat.leb fst]. rewrite (copy_array_exact 4 _ Hh). reflexivity. }
  intros input sig. unfold FromAddress_Verify, Full_Verify.
  destruct (negb (List.length sig =? ed25519_PrivateKeySize)%nat); [reflexivity|].
  rewrite Hpk, (Full_publicKey_of_valid_seed kp raw Hd Hlen). fold pub.
  unfold bind, call, ret, outcome.
  destruct (ed25519_Verify pub input (copy_array ed25519_PrivateKeySize sig));
    reflexivity.
Qed.

End AddressOfFull.

(** X11.  Address round trip.  For a full account built from a 32-byte raw
    seed whose ed25519 private key has 64 bytes, [Address] returns a string
    that [Parse] reads as an address-only account with the same public key
    and the same hint, and the two accounts give the same verdict on every
    message and signature. *)
Theorem Full_Address_round_trip {E : Ed25519} (rawSeed : bytes) :
  List.length rawSeed = 32 ->
  List.length (ed25519_NewKeyFromSeed rawSeed) = 64 ->
  exists kp addr pub,
    account.FromRawSeed rawSeed = Ok kp /\
    outcome (account.Full_Address kp) = Returned addr /\
    outcome (account.Full_publicKey kp) = Returned pub /\
    outcome (account.Parse addr) =
      Returned (Ok (account.AccountFromAddress {| account.address := addr |})) /\
    outcome (account.FromAddress_publicKey {| account.address := addr |}) =
      Returned pub /\
    outcome (account.Full_Hint kp) = Returned (skipn 28 pub) /\
    outcome (account.FromAddress_Hint {| account.address := addr |}) =
      Returned (skipn 28 pub) /\
    forall input sig,
      outcome (account.Verify
                 (account.AccountFromAddress {| account.address := addr |})
                 input sig) =
      outcome (account.Verify (account.AccountFull kp) input sig).
Proof.
  intros Hlen Hsz. destruct (FromRawSeed_ok rawSeed) as (s & _ & Hf & Hd & _).
  destruct (Full_Address_of_valid_seed {| account.seed := s |} rawSeed Hd Hlen Hsz)
    as (addr & He & Haddr & Hda & Hpk & Hh1 & Hh2 & Hv).
  exists {| account.seed := s |}, addr, (slice 32 64 (ed25519_NewKeyFromSeed rawSeed)).
  split; [exact Hf|]. split; [exact Haddr|]. split.
  { rewrite (Full_publicKey_of_valid_seed {| account.seed := s |} rawSeed Hd Hlen).
    reflexivity. }
  split; [rewrite Parse_unfold, Hda; reflexivity|].
  split; [exact Hpk|]. split; [exact Hh1|]. split; [exact Hh2|exact Hv].
Qed.

Lemma Full_Address_round_trip_witness :
  exists kp addr pub,
    account.FromRawSeed (repeat x01 32) = Ok kp /\
    outcome (@account.Full_Address Ed25519_sample kp) = Returned addr /\
    outcome (@account.Full_publicKey Ed25519_sample kp) = Returned pub /\
    outcome (account.Parse addr) =
      Returned (Ok (account.AccountFromAddress {| account.address := addr |})) /\
    outcome (account.FromAddress_publicKey {| account.address := addr |}) =
      Returned pub /\
    outcome (@account.Full_Hint Ed25519_sample kp) = Returned (skipn 28 pub) /\
    outcome (account.FromAddress_Hint {| account.address := addr |}) =
      Returned (skipn 28 pub) /\
    forall input sig,
      outcome (@account.Verify Ed25519_sample
                 (account.AccountFromAddress {| account.address := addr |})
                 input sig) =
      outcome (@account.Verify Ed25519_sample (account.AccountFull kp) input sig).
Proof.
  apply (@Full_Address_round_trip Ed25519_sample (repeat x01 32)); reflexivity.
Defined.

(** X12.  Signing then verifying.  When the ed25519 primitive returns
    64-byte private keys and signatures and accepts what it signed, a full
    account built from a 32-byte raw seed signs every message without a
    panic, and the signature is accepted both by the account itself and by
    the address-only account parsed from its address. *)
Theorem Sign_then_Verify {E : Ed25519} (rawSeed message : bytes) :
  (forall seed msg, List.length seed = ed25519_SeedSize ->
     let priv := ed25519_NewKeyFromSeed seed in
     List.length (ed25519_Sign priv msg) = ed25519_SignatureSize /\
     ed25519_Verify (slice 32 64 priv) msg (ed25519_Sign priv msg) = true) ->
  List.length (ed25519_NewKeyFromSeed rawSeed) = 64 ->
  List.length rawSeed = 32 ->
  exists kp addr sig,
    account.FromRawSeed rawSeed = Ok kp /\
    outcome (account.Full_Address kp) = Returned addr /\
    outcome (account.Sign (account.AccountFull kp) message) = Returned (Ok sig) /\
    outcome (account.Verify (account.AccountFull kp) message sig) =
      Returned (Ok tt) /\
    outcome (account.Verify
               (account.AccountFromAddress {| account.address := addr |})
               message sig) = Returned (Ok tt).
Proof.
  intros Hsound Hsz Hlen.
  destruct (FromRawSeed_ok rawSeed) as (s & _ & Hf & Hd & _).
  destruct (Full_Address_of_valid_seed {| account.seed := s |} rawSeed Hd Hlen Hsz)
    as (addr & _ & Haddr & _ & _ & _ & _ & Hv).
  destruct (Full_Verify_own_signature Hsound {| account.seed := s |} rawSeed
              message Hd Hlen) as (sig & Hsign & Hver).
  exists {| account.seed := s |}, addr, sig.
  split; [exact Hf|]. split; [exact Haddr|]. split; [exact Hsign|].
  split; [exact Hver|]. cbn [account.Verify]. rewrite Hv. exact Hver.
Qed.

Lemma Sign_then_Verify_witness :
  exists kp addr sig,
    account.FromRawSeed (repeat x01 32) = Ok kp /\
    outcome (@account.Full_Address Ed25519_sample kp) = Returned addr /\
    outcome (@account.Sign Ed25519_sample (account.AccountFull kp) [x02; x03]) =
      Returned (Ok sig) /\
    outcome (@account.Verify Ed25519_sample (account.AccountFull kp) [x02; x03] sig) =
      Returned (Ok tt) /\
    outcome (@account.Verify Ed25519_sample
               (account.AccountFromAddress {| account.address := addr |})
               [x02; x03] sig) = Returned (Ok tt).
Proof.
  apply (@Sign_then_Verify Ed25519_sample (repeat x01 32) [x02; x03]).
  - exact Ed25519_sample_sound.
  - reflexivity.
  - reflexivity.
Defined.

(** ** The wallet *)

Section WalletFacts.
Import wallet.
Local Open Scope Z_scope.

Lemma NewWordCount_ok_inv count wc :
  NewWordCount count = Ok wc ->
  wc = count /\ In count [12; 15; 18; 21; 24].
Proof.
  destruct count as [|q|q]; try discriminate.
  do 5 (try (destruct q as [q|q|]; try discriminate));
    intros [= <-]; simpl; tauto.
Qed.


End WalletFacts.

Local Open Scope Z_scope.

(** X13.  [EntropySize] always returns a size [bip39.NewEntropy] can take, a
    multiple of 32 between 128 and 256, also on a word count that is not a
    standard one, for which it returns 256. *)
Theorem EntropySize_range (w : wallet.WordCount) :
  128 <= wallet.EntropySize w <= 256 /\
  wallet.EntropySize w mod 32 = 0 /\
  (~ In w [12; 15; 18; 21; 24] -> wallet.EntropySize w = 256).
Proof.
  destruct w as [|q|q]; try (repeat split; try reflexivity; discriminate).
  do 5 (try (destruct q as [q|q|]));
    (split; [split; discriminate|]); (split; [reflexivity|]);
    intros Hnot; try reflexivity; exfalso; apply Hnot; simpl; tauto.
Qed.

Lemma EntropySize_range_witness : wallet.EntropySize 13 = 256.
Proof.
  apply (proj2 (proj2 (EntropySize_range 13))).
  simpl. intros [H|[H|[H|[H|[H|[]]]]]]; discriminate.
Defined.

(** X14.  An accepted word count is kept as it is, and it obeys the BIP-39
    relation with its entropy size: 11 bits per word make up the entropy and
    its checksum of one bit per 32 bits of entropy. *)
Theorem NewWordCount_entropy_relation (count : Z) (wc : wallet.WordCount) :
  wallet.NewWordCount count = Ok wc ->
  wc = count /\
  11 * wc = wallet.EntropySize wc + wallet.EntropySize wc / 32.
Proof.
  intros Hn. destruct (NewWordCount_ok_inv count wc Hn) as [-> Hin].
  split; [reflexivity|]. simpl in Hin.
  repeat (destruct Hin as [<-|Hin]; [reflexivity|]). contradiction.
Qed.

Lemma NewWordCount_entropy_relation_witness :
  24 = 24 /\ 11 * 24 = wallet.EntropySize 24 + wallet.EntropySize 24 / 32.
Proof.
  apply (NewWordCount_entropy_relation 24 24). reflexivity.
Defined.



(** X16.  The index [DeriveAccount] derives at is computed in 32 bits.  With
    [FirstHardenedIndex] the first index of the hardened range, 2^31, a seed
    and a master key at hand, the account of index [i] is derived at
    [2^31 + i] for [0 <= i < 2^31], a hardened index that tells accounts
    apart; from [2^31] on the sum wraps around and the index is
    [i - 2^31], outside the hardened range. *)
Theorem DeriveAccount_child_index {S : Bip39Seed} {D : Derivation}
    (w : wallet.Wallet) (index : Z) (passphrase : string)
    (seed : bytes) (masterKey : Key) :
  FirstHardenedIndex = 2 ^ 31 ->
  bip39_NewSeedWithErrorChecking (wallet.RecoveryPhrase w) passphrase = Ok seed ->
  DeriveForPath TextileAccountPrefix seed = Ok masterKey ->
  exists child,
    wallet.DeriveAccount w index passphrase =
      match Derive masterKey child with
      | Err err => Err err
      | Ok key => account.FromRawSeed (RawSeed key)
      end /\
    child = (2 ^ 31 + index) mod 2 ^ 32 /\
    (0 <= index < 2 ^ 31 -> child = 2 ^ 31 + index /\ 2 ^ 31 <= child < 2 ^ 32) /\
    (2 ^ 31 <= index < 2 ^ 32 -> child = index - 2 ^ 31 /\ 0 <= child < 2 ^ 31).
Proof.
  intros Hfirst Hseed Hmaster.
  exists (uint32_add FirstHardenedIndex (uint32 index)).
  split; [unfold wallet.DeriveAccount; rewrite Hseed, Hmaster; reflexivity|].
  assert (Hchild : uint32_add FirstHardenedIndex (uint32 index) =
                   (2 ^ 31 + index) mod 2 ^ 32).
  { unfold uint32_add, uint32. rewrite Hfirst.
    rewrite Zplus_mod_idemp_r. reflexivity. }
  rewrite Hchild. split; [reflexivity|]. split; intros Hrange.
  - rewrite Z.mod_small by lia. lia.
  - replace (2 ^ 31 + index) with (index - 2 ^ 31 + 1 * 2 ^ 32) by lia.
    rewrite Z.mod_add by lia. rewrite Z.mod_small by lia. lia.
Qed.

Lemma DeriveAccount_child_index_witness :
  exists child,
    @wallet.DeriveAccount Bip39Seed_sample Derivation_sample
      {| wallet.RecoveryPhrase := "abandon" |} 5 "" =
      match @Derive Derivation_sample (repeat x07 64) child with
      | Err err => Err err
      | Ok key => account.FromRawSeed (@RawSeed Derivation_sample key)
      end /\
    child = (2 ^ 31 + 5) mod 2 ^ 32 /\
    (0 <= 5 < 2 ^ 31 -> child = 2 ^ 31 + 5 /\ 2 ^ 31 <= child < 2 ^ 32) /\
    (2 ^ 31 <= 5 < 2 ^ 32 -> child = 5 - 2 ^ 31 /\ 0 <= child < 2 ^ 31).
Proof.
  apply (@DeriveAccount_child_index Bip39Seed_sample Derivation_sample
           {| wallet.RecoveryPhrase := "abandon" |} 5 "" (repeat x07 64)
           (repeat x07 64)); reflexivity.
Defined.

(** X17.  What [DeriveAccount] returns.  A phrase that bip39 rejects with
    [ErrInvalidMnemonic] gives the error "invalid mnemonic phrase", whatever
    the derivation would do; any other bip39 error comes back as it is; and
    when seed, master key and child key are all derived, the result is the
    full account of the child key's raw seed, whose seed string parses back
    to it. *)
Theorem DeriveAccount_result {S : Bip39Seed} {D : Derivation}
    (w : wallet.Wallet) (index : Z) (passphrase : string) :
  (bip39_NewSeedWithErrorChecking (wallet.RecoveryPhrase w) passphrase =
     Err bip39_ErrInvalidMnemonic ->
   wallet.DeriveAccount w index passphrase =
     Err (ErrExternal "invalid mnemonic phrase")) /\
  (forall err,
     bip39_NewSeedWithErrorChecking (wallet.RecoveryPhrase w) passphrase = Err err ->
     err <> bip39_ErrInvalidMnemonic ->
     wallet.DeriveAccount w index passphrase = Err err) /\
  (forall seed masterKey key,
     bip39_NewSeedWithErrorChecking (wallet.RecoveryPhrase w) passphrase = Ok seed ->
     DeriveForPath TextileAccountPrefix seed = Ok masterKey ->
     Derive masterKey (uint32_add FirstHardenedIndex (uint32 index)) = Ok key ->
     exists kp,
       wallet.DeriveAccount w index passphrase = Ok kp /\
       outcome (account.Full_rawSeed kp) = Returned (RawSeed key) /\
       outcome (account.Parse (account.seed kp)) =
         Returned (Ok (account.AccountFull kp))).
Proof.
  unfold wallet.DeriveAccount. repeat split.
  - intros ->. destruct (error_eq_dec _ _); [reflexivity|contradiction].
  - intros err -> Hne. destruct (error_eq_dec _ _); [contradiction|reflexivity].
  - intros seed masterKey key -> -> ->.
    destruct (FromRawSeed_ok (RawSeed key)) as (s & _ & Hf & Hd & Ha).
    exists {| account.seed := s |}. split; [exact Hf|]. split.
    + unfold account.Full_rawSeed. cbn [account.seed].
      rewrite (call_MustDecode_ok _ _ _ Hd). reflexivity.
    + cbn [account.seed]. rewrite Parse_unfold, Ha, Hd. reflexivity.
Qed.

Lemma DeriveAccount_result_witness :
  @wallet.DeriveAccount Bip39Seed_sample Derivation_sample
    {| wallet.RecoveryPhrase := "" |} 0 "" =
    Err (ErrExternal "invalid mnemonic phrase") /\
  (exists kp,
     @wallet.DeriveAccount Bip39Seed_sample Derivation_sample
       {| wallet.RecoveryPhrase := "abandon" |} 0 "" = Ok kp /\
     outcome (account.Full_rawSeed kp) =
       Returned (account.copy_array 32 (x00 :: repeat x07 64)) /\
     outcome (account.Parse (account.seed kp)) =
       Returned (Ok (account.AccountFull kp))).
Proof.
  split.
  - apply (proj1 (@DeriveAccount_result Bip39Seed_sample Derivation_sample
                    {| wallet.RecoveryPhrase := "" |} 0 "")).
    reflexivity.
  - apply (proj2 (proj2 (@DeriveAccount_result Bip39Seed_sample Derivation_sample
                    {| wallet.RecoveryPhrase := "abandon" |} 0 ""))
             (repeat x07 64) (repeat x07 64) (x00 :: repeat x07 64));
      reflexivity.
Defined.
